(** * RebbleOS, rcore/qemu.c: the QEMU serial channel

    A shallow embedding of the framing layer of [src/rcore/qemu.c]: the
    transmit path [qemu_send_data], the frame decoder [_qemu_handle_packet]
    (with [_qemu_read_header]) and the inner loop of the receive worker
    [_qemu_thread].  The C code works on global state (the [is_qemu] flag,
    the shared receive buffer, the transport); here that state is one record,
    threaded through a small state monad whose results tell a normal return
    from a fault (a failed [assert], a call through a NULL handler). *)

From Stdlib Require Import ZArith List Bool Lia.
From coqutil Require Import Byte.
Import ListNotations.
Local Open Scope Z_scope.

(** ** Types of the headers *)

(** [EndpointHandler] is a pointer to a handler function; a handler is
    identified by a number, and the NULL pointer is [None] where a handler
    is looked up. *)
Definition EndpointHandler : Type := Z.

Record PebbleEndpoint : Type := mkPebbleEndpoint {
  pe_endpoint : Z;
  pe_handler : EndpointHandler
}.

(** The constants, the build switch and the endpoint table that [qemu.c]
    takes from headers and files that are not part of [src/] ([qemu.h],
    [protocol.h], [qemu_endpoints.c], [assert.h]).  Their values are not
    known from the sources, so the development is parametric in them.
    [NDEBUG] tells whether [assert] is compiled out. *)
Class QemuHeaders : Type := {
  QEMU_HEADER_SIGNATURE : Z;
  QEMU_FOOTER_SIGNATURE : Z;
  QEMU_MAX_DATA_LEN : Z;
  QemuProtocol_SPP : Z;
  RX_BUFFER_SIZE : Z;
  qemu_endpoints : list PebbleEndpoint;
  NDEBUG : bool
}.

(** The four return codes of the decoder ([PACKET_*] of protocol.h). *)
Inductive packet_rv : Type :=
| PACKET_PROCESSED
| PACKET_MORE_DATA_REQD
| PACKET_INVALID
| PACKET_BUFFER_HAS_DATA.

(** The [LOG_ERROR]/[LOG_INFO] lines of [_qemu_handle_packet], with their
    arguments. *)
Inductive log_line : Type :=
| Invalid_header_signature (signature : Z)
| Invalid_packet_size (len : Z)
| More_Data_Required (len used : Z)
| Unknown_protocol (protocol : Z)
| Invalid_footer_signature (signature : Z).

(** The reply capability attached by [packet_set_transport]. *)
Inductive ProtocolTransportSender : Type :=
| no_transport
| transport_qemu_send_data.

(** What [packet_create_with_data (endpoint, data, length)] builds.  The C
    packet points into the receive buffer; [packet_data] is the [length]
    bytes it points at when the handler is called. *)
Record RebblePacket : Type := mkPacket {
  packet_endpoint : Z;
  packet_data : list byte;
  packet_length : Z;
  packet_transport : ProtocolTransportSender
}.

Record QemuCommChannelHeader : Type := mkHeader {
  signature : Z;
  protocol : Z;
  len : Z
}.

Definition sizeof_QemuCommChannelHeader : Z := 6.
Definition sizeof_QemuCommChannelFooter : Z := 2.

(** ** The state *)

Record machine : Type := mkMachine {
  is_qemu : Z;                 (* static int is_qemu *)
  rx_buffer : list byte;       (* the memory of the shared receive buffer *)
  rx_buf_used : Z;             (* its used-length *)
  hw_rx : list byte;           (* bytes the transport holds for hw_qemu_read *)
  hw_tx : list byte;           (* bytes written with hw_qemu_write *)
  dispatched : list (EndpointHandler * RebblePacket);  (* handler calls *)
  log : list log_line          (* log lines, oldest first *)
}.

Definition set_is_qemu (v : Z) (m : machine) : machine :=
  mkMachine v (rx_buffer m) (rx_buf_used m) (hw_rx m) (hw_tx m)
            (dispatched m) (log m).

Definition set_rx (b : list byte) (u : Z) (m : machine) : machine :=
  mkMachine (is_qemu m) b u (hw_rx m) (hw_tx m) (dispatched m) (log m).

Definition set_hw_rx (q : list byte) (m : machine) : machine :=
  mkMachine (is_qemu m) (rx_buffer m) (rx_buf_used m) q (hw_tx m)
            (dispatched m) (log m).

Definition set_hw_tx (q : list byte) (m : machine) : machine :=
  mkMachine (is_qemu m) (rx_buffer m) (rx_buf_used m) (hw_rx m) q
            (dispatched m) (log m).

Definition add_dispatched (h : EndpointHandler) (p : RebblePacket)
  (m : machine) : machine :=
  mkMachine (is_qemu m) (rx_buffer m) (rx_buf_used m) (hw_rx m) (hw_tx m)
            (dispatched m ++ [(h, p)]) (log m).

Definition add_log (l : log_line) (m : machine) : machine :=
  mkMachine (is_qemu m) (rx_buffer m) (rx_buf_used m) (hw_rx m) (hw_tx m)
            (dispatched m) (log m ++ [l]).

(** ** The monad: state, faults, fuel *)

Inductive fault : Type :=
| AssertionFailed        (* assert (e) with e false *)
| NullHandlerCalled.     (* a call through a NULL function pointer *)

Inductive result (A : Type) : Type :=
| Ret (a : A) (m : machine)
| Fault (f : fault) (m : machine)
| OutOfFuel.

Arguments Ret {A} a m.
Arguments Fault {A} f m.
Arguments OutOfFuel {A}.

Definition M (A : Type) : Type := machine -> result A.

Definition ret {A} (a : A) : M A := fun m => Ret a m.

Definition bind {A B} (c : M A) (k : A -> M B) : M B :=
  fun m =>
    match c m with
    | Ret a m' => k a m'
    | Fault f m' => Fault f m'
    | OutOfFuel => OutOfFuel
    end.

Notation "x <- c ;; k" := (bind c (fun x => k))
  (at level 61, c at next level, right associativity).
Notation "c ;; k" := (bind c (fun _ => k))
  (at level 61, right associativity).

Definition get {A} (f : machine -> A) : M A := fun m => Ret (f m) m.
Definition modify (f : machine -> machine) : M unit := fun m => Ret tt (f m).
Definition raise {A} (f : fault) : M A := fun m => Fault f m.

(** The value a [result] returns, and its final state. *)
Definition returned {A} (r : result A) : option A :=
  match r with Ret a _ => Some a | _ => None end.

Definition final {A} (r : result A) : option machine :=
  match r with Ret _ m => Some m | Fault _ m => Some m | OutOfFuel => None end.

(** ** Integers and memory *)

(** [htons] and [ntohs] on the little-endian target: the argument is
    converted to [uint16_t] and its two bytes are swapped. *)
Definition htons (x : Z) : Z :=
  let x := x mod 65536 in (x mod 256) * 256 + x / 256.

Definition ntohs (x : Z) : Z := htons x.

(** The two bytes of a [uint16_t] object in memory. *)
Definition store16 (x : Z) : list byte :=
  [byte.of_Z x; byte.of_Z (x / 256)].

(** The [uint16_t] read at offset [off] of [buf]; a read past the end of the
    list, which the C code would take from whatever memory follows, gives
    zero bytes. *)
Definition load16 (buf : list byte) (off : Z) : Z :=
  byte.unsigned (nth (Z.to_nat off) buf Byte.x00)
  + 256 * byte.unsigned (nth (Z.to_nat (off + 1)) buf Byte.x00).

(** The six bytes of a (packed) [QemuCommChannelHeader] object in memory. *)
Definition header_bytes (h : QemuCommChannelHeader) : list byte :=
  store16 (signature h) ++ store16 (protocol h) ++ store16 (len h).

(** [memmove (buf + dst, buf + src, n)] within one buffer. *)
Definition memmove (buf : list byte) (dst src n : Z) : list byte :=
  firstn (Z.to_nat dst) buf
  ++ firstn (Z.to_nat n) (skipn (Z.to_nat src) buf)
  ++ skipn (Z.to_nat (dst + n)) buf.

(** [memcpy (buf + dst, data, length data)]. *)
Definition memcpy (buf : list byte) (dst : Z) (data : list byte) : list byte :=
  firstn (Z.to_nat dst) buf
  ++ data
  ++ skipn (Z.to_nat dst + length data) buf.

(** The header [_qemu_read_header] finds in a buffer. *)
Definition header_of (buf : list byte) : QemuCommChannelHeader :=
  mkHeader (ntohs (load16 buf 0)) (ntohs (load16 buf 2))
           (ntohs (load16 buf 4)).

Section Qemu.

Context {hdrs : QemuHeaders}.

(** ** The collaborators of qemu.c

    The shared receive buffer (protocol.c), the transport (hw_qemu.c), the
    endpoint lookup and the packet object are used by qemu.c and are not
    under [src/]. *)

(** Modelled from the spec: [buffer.raw_pointer() -> ptr] of protocol.c,
    which is not under [src/]; the buffer is one array and the pointer is to
    its first byte. *)
Definition protocol_get_rx_buffer : M (list byte) := get rx_buffer.

(** Modelled from the spec: [buffer.used_length() -> n] of protocol.c. *)
Definition protocol_get_rx_buf_used : M Z := get rx_buf_used.

(** Modelled from the spec: [buffer.append(bytes) -> status] of protocol.c;
    "the append fails (buffer full / capacity exceeded)" when the bytes do
    not fit after the used part, and then the buffer is as before; otherwise
    the bytes are copied behind the used part. *)
Definition protocol_rx_buffer_append (data : list byte) : M Z :=
  fun m =>
    if rx_buf_used m + Z.of_nat (length data) >? RX_BUFFER_SIZE
    then Ret (-1) m
    else Ret 0 (set_rx (memcpy (rx_buffer m) (rx_buf_used m) data)
                       (rx_buf_used m + Z.of_nat (length data)) m).

(** Modelled from the spec: [buffer.reset()] of protocol.c; the used-length
    goes back to zero, the bytes stay in memory. *)
Definition protocol_rx_buffer_reset : M unit :=
  modify (fun m => set_rx (rx_buffer m) 0 m).

(** Modelled from the spec: [buffer.adjust(delta)] of protocol.c; the
    used-length moves by [delta]. *)
Definition protocol_rx_buffer_pointer_adjust (howmuch : Z) : M unit :=
  modify (fun m => set_rx (rx_buffer m) (rx_buf_used m + howmuch) m).

(** Modelled from the spec: [buffer.lock()/unlock()] of protocol.c; one
    worker decodes, so taking and giving the lock changes nothing. *)
Definition protocol_buffer_lock : M unit := ret tt.
Definition protocol_buffer_unlock : M unit := ret tt.

(** Modelled from the spec: [dispatch.resolve(protocol_id) ->
    handler_or_none] of protocol.c, over the table [qemu_endpoints]: the
    handler of the first entry for the protocol, and NULL ([None]) when
    there is none. *)
Fixpoint protocol_find_endpoint_handler (protocol : Z)
  (endpoints : list PebbleEndpoint) : option EndpointHandler :=
  match endpoints with
  | [] => None
  | e :: rest =>
      if pe_endpoint e =? protocol then Some (pe_handler e)
      else protocol_find_endpoint_handler protocol rest
  end.

(** Modelled from the spec: [transport.read(buf, max) -> n] of hw_qemu.c;
    up to [max] of the bytes the transport holds, which it then no longer
    holds. *)
Definition hw_qemu_read (max_len : Z) : M (list byte) :=
  fun m =>
    Ret (firstn (Z.to_nat max_len) (hw_rx m))
        (set_hw_rx (skipn (Z.to_nat max_len) (hw_rx m)) m).

(** Modelled from the spec: [transport.write(buf, n) -> n] of hw_qemu.c. *)
Definition hw_qemu_write (data : list byte) : M Z :=
  fun m => Ret (Z.of_nat (length data)) (set_hw_tx (hw_tx m ++ data) m).

(** Modelled from the spec: the Decoded Packet of protocol_service.c, "an
    ephemeral payload slice plus an associated reply/transport
    capability". *)
Definition packet_create_with_data (endpoint : Z) (data : list byte)
  (length : Z) : RebblePacket :=
  mkPacket endpoint (firstn (Z.to_nat length) data) length no_transport.

(** Modelled from the spec: attaching "the Transmit Path as its reply
    capability". *)
Definition packet_set_transport (p : RebblePacket)
  (t : ProtocolTransportSender) : RebblePacket :=
  mkPacket (packet_endpoint p) (packet_data p) (packet_length p) t.

(** Modelled from the spec: the call [handler (p)].  The handlers are not
    under [src/]; a handler "that mutates the buffer during its call is out
    of contract", so a call is recorded and leaves the buffer alone.  A call
    through the NULL pointer is a fault. *)
Definition call_handler (handler : option EndpointHandler)
  (p : RebblePacket) : M unit :=
  match handler with
  | Some h => modify (add_dispatched h p)
  | None => raise NullHandlerCalled
  end.

(** [assert (e)]: nothing under [NDEBUG], a fault when [e] is false
    otherwise. *)
Definition assert (e : bool) : M unit :=
  if NDEBUG then ret tt
  else if e then ret tt else raise AssertionFailed.

Definition LOG (l : log_line) : M unit := modify (add_log l).

(** The FreeRTOS calls and the interrupt switch: with one worker and no
    other task they change nothing of the state above. *)
Definition xSemaphoreTake : M unit := ret tt.
Definition xSemaphoreGive : M unit := ret tt.
Definition vTaskDelay (ticks : Z) : M unit := ret tt.
Definition hw_qemu_irq_enable : M unit := ret tt.

(** ** qemu.c *)

(** [qemu_init]: the flag is set (the task and semaphores it creates are the
    single worker of this model). *)
Definition qemu_init : M unit := modify (set_is_qemu 1).

(** [qemu_send_data (endpoint, data, len)], lines 76-106. *)
Definition qemu_send_data (endpoint : Z) (data : list byte) (len : Z)
  : M unit :=
  flag <- get is_qemu ;;
  if flag =? 0 then ret tt
  else
    xSemaphoreTake ;;
    let header := mkHeader (htons QEMU_HEADER_SIGNATURE)
                           (htons QemuProtocol_SPP)
                           (htons (len + 4)) in
    hw_qemu_write (header_bytes header) ;;
    (* Write the length out *)
    let l := htons len in
    hw_qemu_write (store16 l) ;;
    (* Write the endpoint out *)
    let ep := htons endpoint in
    hw_qemu_write (store16 ep) ;;
    (* data *)
    hw_qemu_write (firstn (Z.to_nat len) data) ;;
    (* footer *)
    let footer := htons QEMU_FOOTER_SIGNATURE in
    hw_qemu_write (store16 footer) ;;
    xSemaphoreGive.

(** [_qemu_read_header], lines 173-180: the three fields are read from the
    first six bytes of the buffer, whatever its used-length. *)
Definition _qemu_read_header : M QemuCommChannelHeader :=
  buf <- protocol_get_rx_buffer ;;
  ret (mkHeader (ntohs (load16 buf 0))
                (ntohs (load16 buf 2))
                (ntohs (load16 buf 4))).

(** [_qemu_handle_packet], lines 182-242. *)
Definition _qemu_handle_packet : M packet_rv :=
  header <- _qemu_read_header ;;
  if negb (signature header =? QEMU_HEADER_SIGNATURE) then
    LOG (Invalid_header_signature (signature header)) ;;
    ret PACKET_INVALID
  else if len header >? QEMU_MAX_DATA_LEN then
    LOG (Invalid_packet_size (len header)) ;;
    ret PACKET_INVALID
  else
    used <- protocol_get_rx_buf_used ;;
    if used <? len header + sizeof_QemuCommChannelHeader
                          + sizeof_QemuCommChannelFooter then
      LOG (More_Data_Required (len header) used) ;;
      ret PACKET_MORE_DATA_REQD
    else
      let handler :=
        protocol_find_endpoint_handler (protocol header) qemu_endpoints in
      (match handler with
       | None => LOG (Unknown_protocol (protocol header))
       | Some _ => ret tt
       end) ;;
      buf <- protocol_get_rx_buffer ;;
      let footer :=
        load16 buf (len header + sizeof_QemuCommChannelHeader) in
      if negb (ntohs footer =? QEMU_FOOTER_SIGNATURE) then
        LOG (Invalid_footer_signature (ntohs footer)) ;;
        ret PACKET_INVALID
      else
        (* Clean up the buffer so it has only the protocol data *)
        protocol_buffer_lock ;;
        modify (fun m =>
          set_rx (memmove (rx_buffer m) 0 sizeof_QemuCommChannelHeader
                          (len header))
                 (rx_buf_used m) m) ;;
        (* the argument -(sizeof + sizeof) arrives as the int -8 *)
        protocol_rx_buffer_pointer_adjust
          (- (sizeof_QemuCommChannelFooter + sizeof_QemuCommChannelHeader)) ;;
        used <- protocol_get_rx_buf_used ;;
        assert (used =? len header) ;;
        protocol_buffer_unlock ;;
        buf <- protocol_get_rx_buffer ;;
        let p := packet_create_with_data 0 buf (len header) in
        let p := packet_set_transport p transport_qemu_send_data in
        call_handler handler p ;;
        used <- protocol_get_rx_buf_used ;;
        if used >? len header then ret PACKET_BUFFER_HAS_DATA
        else ret PACKET_PROCESSED.

(** The body of the [while (!done)] loop of [_qemu_thread], lines 151-167;
    its value is [done] at the end of the body.  [done] is set when the
    append fails and is looked at only in the loop condition: the decoder
    runs in every pass. *)
Definition _qemu_thread_body : M bool :=
  buf <- hw_qemu_read 64 ;;
  let lenr := Z.of_nat (length buf) in
  done <- (if negb (lenr =? 0) then
             r <- protocol_rx_buffer_append buf ;;
             if r <? 0 then protocol_rx_buffer_reset ;; ret true
             else ret false
           else ret false) ;;
  rv <- _qemu_handle_packet ;;
  done <- (match rv with
           | PACKET_PROCESSED | PACKET_MORE_DATA_REQD => ret true
           | PACKET_INVALID => protocol_rx_buffer_reset ;; ret true
           | PACKET_BUFFER_HAS_DATA => ret done
           end) ;;
  vTaskDelay 0 ;;
  ret done.

(** The [while (!done)] loop, lines 147-168, entered with [done] false and
    bounded by [fuel] passes. *)
Fixpoint _qemu_thread_while (fuel : nat) : M unit :=
  match fuel with
  | O => fun _ => OutOfFuel
  | S fuel' =>
      done <- _qemu_thread_body ;;
      if (done : bool) then ret tt else _qemu_thread_while fuel'
  end.

(** One turn of the [for (;;)] of [_qemu_thread], lines 146-169: the worker
    is woken, runs the inner loop and enables the interrupt again. *)
Definition _qemu_thread_wake (fuel : nat) : M unit :=
  xSemaphoreTake ;;
  _qemu_thread_while fuel ;;
  hw_qemu_irq_enable.

(** A read event: [chunk] arrives at the transport, [qemu_rx_started_isr]
    gives the semaphore and the worker takes one turn. *)
Definition qemu_rx_event (fuel : nat) (chunk : list byte) : M unit :=
  modify (fun m => set_hw_rx (hw_rx m ++ chunk) m) ;;
  _qemu_thread_wake fuel.

(** The chunks of a stream, one read event each. *)
Fixpoint qemu_rx_events (fuel : nat) (chunks : list (list byte)) : M unit :=
  match chunks with
  | [] => ret tt
  | c :: rest => qemu_rx_event fuel c ;; qemu_rx_events fuel rest
  end.

(** The payloads handed to handlers, in the order of the calls. *)
Definition dispatched_payloads (m : machine) : list (list byte) :=
  map (fun hp => packet_data (snd hp)) (dispatched m).

(** The machine after start-up, [qemu_init] included: the buffer is a static
    array (all zero), nothing used, nothing sent or received. *)
Definition boot : machine :=
  mkMachine 1 (repeat Byte.x00 (Z.to_nat RX_BUFFER_SIZE)) 0 [] [] [] [].

(** A frame as it is on the wire: header, payload, footer. *)
Definition qemu_frame (protocol : Z) (payload : list byte) : list byte :=
  store16 (htons QEMU_HEADER_SIGNATURE) ++ store16 (htons protocol)
  ++ store16 (htons (Z.of_nat (length payload)))
  ++ payload ++ store16 (htons QEMU_FOOTER_SIGNATURE).

(** ** Auxiliary definitions for the statements *)

(** What the two header checks of the decoder say about a buffer. *)
Definition header_verdict (buf : list byte) : packet_rv :=
  if negb (signature (header_of buf) =? QEMU_HEADER_SIGNATURE)
  then PACKET_INVALID
  else if len (header_of buf) >? QEMU_MAX_DATA_LEN then PACKET_INVALID
  else PACKET_MORE_DATA_REQD.

(** The state after the consume step of a validated frame: the line for an
    unknown protocol is logged, the payload is moved to the front and the
    used-length is taken back by header and footer. *)
Definition consumed (m : machine) : machine :=
  let header := header_of (rx_buffer m) in
  let m0 :=
    match protocol_find_endpoint_handler (protocol header) qemu_endpoints with
    | None => add_log (Unknown_protocol (protocol header)) m
    | Some _ => m
    end in
  set_rx (memmove (rx_buffer m) 0 sizeof_QemuCommChannelHeader (len header))
         (rx_buf_used m - 8) m0.


(** The packet handed to the handler of a validated frame. *)
Definition decoded_packet (m : machine) : RebblePacket :=
  mkPacket 0
    (firstn (Z.to_nat (len (header_of (rx_buffer m))))
            (rx_buffer (consumed m)))
    (len (header_of (rx_buffer m))) transport_qemu_send_data.

End Qemu.

(** ** Concrete headers

    The signatures, the maximum length and the protocol number of the Pebble
    QEMU serial protocol, with a buffer of 2048 bytes and a table of two
    handlers, to run the code on concrete bytes: once with [assert] compiled
    in, once compiled out. *)
Definition qemu_h (ndebug : bool) : QemuHeaders := {|
  QEMU_HEADER_SIGNATURE := 0xFEED;
  QEMU_FOOTER_SIGNATURE := 0xBEEF;
  QEMU_MAX_DATA_LEN := 2048;
  QemuProtocol_SPP := 1;
  RX_BUFFER_SIZE := 2048;
  qemu_endpoints := [mkPebbleEndpoint 1 1001; mkPebbleEndpoint 100 1100];
  NDEBUG := ndebug
|}.

Definition bytes_of (l : list Z) : list byte := map byte.of_Z l.

Definition debug_build : QemuHeaders := qemu_h false.
Definition release_build : QemuHeaders := qemu_h true.

(** The machine after start-up of the debug build with [received] in the
    used part of the buffer and [stale] in the memory behind it. *)
Definition with_buffer (received stale : list Z) : machine :=
  set_rx (memcpy (rx_buffer (boot (hdrs := debug_build))) 0
                 (bytes_of (received ++ stale)))
         (Z.of_nat (length received)) (boot (hdrs := debug_build)).

(** The dispatched payloads after a list of read events, from start-up. *)
Definition payloads_after {hdrs : QemuHeaders} (chunks : list (list byte))
  : option (list (list byte)) :=
  option_map dispatched_payloads (final (qemu_rx_events 4 chunks boot)).

(** Sending on a machine after start-up, and decoding what was written on
    another machine after start-up. *)
Definition loopback {hdrs : QemuHeaders} (endpoint : Z) (data : list byte)
  : result packet_rv :=
  match qemu_send_data endpoint data (Z.of_nat (length data)) boot with
  | Ret _ m' => (protocol_rx_buffer_append (hw_tx m') ;; _qemu_handle_packet) boot
  | Fault f m' => Fault f m'
  | OutOfFuel => OutOfFuel
  end.

Definition ping : list byte := bytes_of [0x70; 0x69; 0x6e; 0x67].

(** The machine after start-up of the debug build, once [bytes] were
    appended to its receive buffer. *)
Definition received (bytes : list byte) : machine :=
  match protocol_rx_buffer_append (hdrs := debug_build) bytes
          (boot (hdrs := debug_build)) with
  | Ret _ m => m
  | _ => boot (hdrs := debug_build)
  end.

(** A frame with the two bytes "hi" for the handler of protocol 1. *)
Definition hi_frame : list byte :=
  qemu_frame (hdrs := debug_build) 1 (bytes_of [0x68; 0x69]).

(** Two frames of one byte each, "a" and "b". *)
Definition frame_a : list byte :=
  qemu_frame (hdrs := debug_build) 1 (bytes_of [0x61]).
Definition frame_b : list byte :=
  qemu_frame (hdrs := debug_build) 1 (bytes_of [0x62]).

(** A frame of the largest payload length, 2048 bytes. *)
Definition max_frame : list byte :=
  qemu_frame (hdrs := debug_build) 1 (repeat Byte.x00 2048).

(** Six bytes that are no frame, the last of them 0xFF. *)
Definition stale_traffic : list byte := bytes_of [0; 0; 0; 0; 0; 0xFF].

(** The first 2048 bytes of [max_frame] in reads of 64 bytes, which fill the
    buffer of the concrete headers, and the eight bytes that remain. *)
Definition overflow_chunks : list (list byte) :=
  (bytes_of [0xFE; 0xED; 0; 1; 8; 0] ++ repeat Byte.x00 58)
  :: repeat (repeat Byte.x00 64) 31.

Definition overflow_last : list byte :=
  repeat Byte.x00 6 ++ bytes_of [0xBE; 0xEF].

(** The machine of the debug build after [overflow_chunks], with
    [overflow_last] waiting at the transport. *)
Definition overflow_machine : machine :=
  match final (qemu_rx_events (hdrs := debug_build) 4 overflow_chunks
                 (boot (hdrs := debug_build))) with
  | Some m => set_hw_rx (hw_rx m ++ overflow_last) m
  | None => boot (hdrs := debug_build)
  end.


(** ** The rest of qemu.c *)

Section QemuRest.

Context {hdrs : QemuHeaders}.

(** [QemuProtocol_Tests] of qemu.h, the protocol number [qemu_reply_test]
    writes; its value is not known from the sources. *)
Variable QemuProtocol_Tests : Z.

(** [qemu_read (buffer, max_len)], lines 58-64: the bytes put into [buffer];
    the C function returns their number. *)
Definition qemu_read (max_len : Z) : M (list byte) :=
  xSemaphoreTake ;;
  bytes_read <- hw_qemu_read max_len ;;
  xSemaphoreGive ;;
  ret bytes_read.

(** [qemu_write (buffer, len)], lines 67-74. *)
Definition qemu_write (buffer : list byte) (len : Z) : M Z :=
  xSemaphoreTake ;;
  bytes_written <- hw_qemu_write (firstn (Z.to_nat len) buffer) ;;
  xSemaphoreGive ;;
  ret bytes_written.


(** ** Further definitions for the statements *)

(** The payload [qemu_send_data] wraps into its frame. *)
Definition spp_payload (endpoint : Z) (data : list byte) : list byte :=
  store16 (htons (Z.of_nat (length data))) ++ store16 (htons endpoint)
  ++ data.


(** The used-length is within the capacity, and the memory of the buffer is
    as long as the capacity. *)
Definition buffer_in_bounds (m : machine) : Prop :=
  0 <= rx_buf_used m <= RX_BUFFER_SIZE
  /\ Z.of_nat (length (rx_buffer m)) = RX_BUFFER_SIZE.

(** [P] holds where a computation stops, by return or by fault, whenever it
    held where it started. *)
Definition preserves {A} (P : machine -> Prop) (c : M A) : Prop :=
  forall m : machine,
    P m ->
    match c m with
    | Ret _ m' => P m'
    | Fault _ m' => P m'
    | OutOfFuel => True
    end.

(** Two machines that differ in the log only. *)
Definition same_but_log (m m' : machine) : Prop :=
  is_qemu m' = is_qemu m /\ rx_buffer m' = rx_buffer m
  /\ rx_buf_used m' = rx_buf_used m /\ hw_rx m' = hw_rx m
  /\ hw_tx m' = hw_tx m /\ dispatched m' = dispatched m.

(** The five ways through the decoder, by the checks on the buffer. *)
Inductive decoder_path (m : machine) : Prop :=
| path_signature :
    signature (header_of (rx_buffer m)) <> QEMU_HEADER_SIGNATURE ->
    decoder_path m
| path_size :
    signature (header_of (rx_buffer m)) = QEMU_HEADER_SIGNATURE ->
    QEMU_MAX_DATA_LEN < len (header_of (rx_buffer m)) ->
    decoder_path m
| path_incomplete :
    signature (header_of (rx_buffer m)) = QEMU_HEADER_SIGNATURE ->
    len (header_of (rx_buffer m)) <= QEMU_MAX_DATA_LEN ->
    rx_buf_used m < len (header_of (rx_buffer m)) + 8 ->
    decoder_path m
| path_footer :
    signature (header_of (rx_buffer m)) = QEMU_HEADER_SIGNATURE ->
    len (header_of (rx_buffer m)) <= QEMU_MAX_DATA_LEN ->
    len (header_of (rx_buffer m)) + 8 <= rx_buf_used m ->
    ntohs (load16 (rx_buffer m) (len (header_of (rx_buffer m)) + 6))
      <> QEMU_FOOTER_SIGNATURE ->
    decoder_path m
| path_validated :
    signature (header_of (rx_buffer m)) = QEMU_HEADER_SIGNATURE ->
    len (header_of (rx_buffer m)) <= QEMU_MAX_DATA_LEN ->
    len (header_of (rx_buffer m)) + 8 <= rx_buf_used m ->
    ntohs (load16 (rx_buffer m) (len (header_of (rx_buffer m)) + 6))
      = QEMU_FOOTER_SIGNATURE ->
    decoder_path m.

(** The chunks of a read sequence are not empty, and none is longer than one
    read of the worker. *)
Definition readable (chunks : list (list byte)) : Prop :=
  Forall (fun c => c <> [] /\ Z.of_nat (length c) <= 64) chunks.

End QemuRest.


(** Payloads of 2045 and of 65532 bytes. *)
Definition long_data : list byte := repeat Byte.x00 2045.
Definition longest_data : list byte := repeat Byte.x00 (Z.to_nat 65532).

(** * Properties *)

(** ** Integers and lists *)

Lemma htons_range x : 0 <= htons x < 65536.
Proof.
  unfold htons. cbv zeta.
  pose proof (Z.mod_pos_bound x 65536 eq_refl).
  pose proof (Z.mod_pos_bound (x mod 65536) 256 eq_refl).
  assert (0 <= x mod 65536 / 256 < 256)
    by (split; [apply Z.div_pos; lia | apply Z.div_lt_upper_bound; lia]).
  lia.
Qed.

Lemma ntohs_htons x : 0 <= x < 65536 -> ntohs (htons x) = x.
Proof.
  intros Hx. unfold ntohs, htons. cbv zeta.
  rewrite (Z.mod_small x 65536) by lia.
  Z.div_mod_to_equations. lia.
Qed.

Lemma htons_low_byte x : 0 <= x < 65536 -> htons x mod 256 = x / 256.
Proof.
  intros Hx. unfold htons. cbv zeta.
  rewrite (Z.mod_small x 65536) by lia.
  rewrite Z.add_comm, Z.mod_add by lia.
  apply Z.mod_small.
  split; [apply Z.div_pos; lia | apply Z.div_lt_upper_bound; lia].
Qed.

Lemma load16_store16 x rest :
  0 <= x < 65536 -> load16 (store16 x ++ rest) 0 = x.
Proof.
  intros Hx. unfold load16, store16.
  change (Z.to_nat 0) with 0%nat. change (Z.to_nat (0 + 1)) with 1%nat.
  cbn [app nth].
  rewrite !byte.unsigned_of_Z. unfold byte.wrap.
  change (2 ^ 8) with 256.
  Z.div_mod_to_equations. lia.
Qed.

Lemma load16_app pre l off :
  0 <= off ->
  load16 (pre ++ l) (Z.of_nat (length pre) + off) = load16 l off.
Proof.
  intros Hoff. unfold load16.
  replace (Z.to_nat (Z.of_nat (length pre) + off))
    with (length pre + Z.to_nat off)%nat by lia.
  replace (Z.to_nat (Z.of_nat (length pre) + off + 1))
    with (length pre + Z.to_nat (off + 1))%nat by lia.
  now rewrite !app_nth2_plus.
Qed.

Lemma firstn_length_app {A} (l1 l2 : list A) :
  firstn (length l1) (l1 ++ l2) = l1.
Proof. induction l1; simpl; congruence. Qed.


Lemma header_of_firstn buf : header_of (firstn 6 buf) = header_of buf.
Proof.
  destruct buf as [|b0 [|b1 [|b2 [|b3 [|b4 [|b5 rest]]]]]]; reflexivity.
Qed.

Lemma load16_skip2 x rest off :
  2 <= off -> load16 (store16 x ++ rest) off = load16 rest (off - 2).
Proof.
  intros Hoff. unfold load16, store16. cbn [app].
  replace (Z.to_nat off) with (S (S (Z.to_nat (off - 2)))) by lia.
  replace (Z.to_nat (off + 1)) with (S (S (Z.to_nat (off - 2 + 1)))) by lia.
  reflexivity.
Qed.

(** Reading back a header object that was written with its fields in
    network order. *)
Lemma header_of_header_bytes s p l rest :
  0 <= s < 65536 -> 0 <= p < 65536 -> 0 <= l < 65536 ->
  header_of (header_bytes (mkHeader (htons s) (htons p) (htons l)) ++ rest)
  = mkHeader s p l.
Proof.
  intros Hs Hp Hl. unfold header_of, header_bytes.
  cbn [signature protocol len]. rewrite <- !app_assoc.
  rewrite load16_store16 by apply htons_range.
  rewrite (load16_skip2 _ _ 2), (load16_skip2 _ _ 4) by lia.
  rewrite (load16_skip2 _ _ (4 - 2)) by lia.
  change (2 - 2) with 0. change (4 - 2 - 2) with 0.
  rewrite !load16_store16 by apply htons_range.
  now rewrite !ntohs_htons by assumption.
Qed.

Lemma header_of_len_nonneg buf : 0 <= len (header_of buf) < 65536.
Proof. apply htons_range. Qed.

Section Decoder.

Context {hdrs : QemuHeaders}.

(** The three early exits of the decoder. *)

Lemma handle_bad_signature m :
  signature (header_of (rx_buffer m)) <> QEMU_HEADER_SIGNATURE ->
  _qemu_handle_packet m =
    Ret PACKET_INVALID
        (add_log (Invalid_header_signature
                    (signature (header_of (rx_buffer m)))) m).
Proof.
  intros H. apply Z.eqb_neq in H.
  unfold _qemu_handle_packet, _qemu_read_header, protocol_get_rx_buffer,
    bind, get, ret. fold (header_of (rx_buffer m)).
  now rewrite H.
Qed.

Lemma handle_oversize m :
  signature (header_of (rx_buffer m)) = QEMU_HEADER_SIGNATURE ->
  len (header_of (rx_buffer m)) > QEMU_MAX_DATA_LEN ->
  _qemu_handle_packet m =
    Ret PACKET_INVALID
        (add_log (Invalid_packet_size (len (header_of (rx_buffer m)))) m).
Proof.
  intros Hs Hl. apply Z.eqb_eq in Hs.
  assert (Hl' : (len (header_of (rx_buffer m)) >? QEMU_MAX_DATA_LEN) = true)
    by (apply Z.gtb_lt; lia).
  unfold _qemu_handle_packet, _qemu_read_header, protocol_get_rx_buffer,
    bind, get, ret. fold (header_of (rx_buffer m)).
  now rewrite Hs, Hl'.
Qed.

Lemma handle_incomplete m :
  signature (header_of (rx_buffer m)) = QEMU_HEADER_SIGNATURE ->
  len (header_of (rx_buffer m)) <= QEMU_MAX_DATA_LEN ->
  rx_buf_used m < len (header_of (rx_buffer m))
                  + sizeof_QemuCommChannelHeader
                  + sizeof_QemuCommChannelFooter ->
  _qemu_handle_packet m =
    Ret PACKET_MORE_DATA_REQD
        (add_log (More_Data_Required (len (header_of (rx_buffer m)))
                                     (rx_buf_used m)) m).
Proof.
  intros Hs Hl Hu. apply Z.eqb_eq in Hs.
  assert (Hl' : (len (header_of (rx_buffer m)) >? QEMU_MAX_DATA_LEN) = false)
    by (rewrite Z.gtb_ltb; apply Z.ltb_ge; lia).
  apply Z.ltb_lt in Hu.
  unfold _qemu_handle_packet, _qemu_read_header, protocol_get_rx_buffer,
    protocol_get_rx_buf_used, bind, get, ret.
  fold (header_of (rx_buffer m)).
  rewrite Hs, Hl'. cbn [negb]. now rewrite Hu.
Qed.



(** With fewer than six bytes used the decoder stops at one of its three
    early exits, and which one is read off the six bytes in memory. *)
Lemma handle_short m :
  rx_buf_used m < sizeof_QemuCommChannelHeader ->
  exists l : log_line,
    _qemu_handle_packet m = Ret (header_verdict (rx_buffer m)) (add_log l m)
    /\ (l = Invalid_header_signature (signature (header_of (rx_buffer m)))
        \/ l = Invalid_packet_size (len (header_of (rx_buffer m)))
        \/ l = More_Data_Required (len (header_of (rx_buffer m)))
                                  (rx_buf_used m)).
Proof.
  intros Hu. unfold header_verdict.
  pose proof (header_of_len_nonneg (rx_buffer m)) as Hlen.
  unfold sizeof_QemuCommChannelHeader in Hu.
  destruct (Z.eqb_spec (signature (header_of (rx_buffer m)))
                       QEMU_HEADER_SIGNATURE) as [Hs|Hs]; cbn [negb].
  - destruct (Z.gtb_spec (len (header_of (rx_buffer m)))
                         QEMU_MAX_DATA_LEN) as [Hl|Hl].
    + eexists. split; [apply handle_oversize; [assumption | lia] | tauto].
    + eexists. split; [apply handle_incomplete; try assumption | tauto].
      unfold sizeof_QemuCommChannelHeader, sizeof_QemuCommChannelFooter.
      lia.
  - eexists. split; [now apply handle_bad_signature | tauto].
Qed.

Lemma header_verdict_cases buf :
  header_verdict buf = PACKET_INVALID
  \/ header_verdict buf = PACKET_MORE_DATA_REQD.
Proof.
  unfold header_verdict.
  destruct (negb _); [tauto|]. destruct (_ >? _); tauto.
Qed.

Lemma consumed_used m : rx_buf_used (consumed m) = rx_buf_used m - 8.
Proof. reflexivity. Qed.

Lemma consumed_dispatched m : dispatched (consumed m) = dispatched m.
Proof.
  unfold consumed.
  destruct (protocol_find_endpoint_handler _ _); reflexivity.
Qed.

Lemma consumed_buffer m :
  rx_buffer (consumed m)
  = memmove (rx_buffer m) 0 sizeof_QemuCommChannelHeader
            (len (header_of (rx_buffer m))).
Proof. reflexivity. Qed.

(** A frame that passes every check: what the decoder does from the consume
    step on. *)
Lemma handle_validated m :
  let header := header_of (rx_buffer m) in
  signature header = QEMU_HEADER_SIGNATURE ->
  len header <= QEMU_MAX_DATA_LEN ->
  len header + sizeof_QemuCommChannelHeader + sizeof_QemuCommChannelFooter
    <= rx_buf_used m ->
  ntohs (load16 (rx_buffer m) (len header + sizeof_QemuCommChannelHeader))
    = QEMU_FOOTER_SIGNATURE ->
  _qemu_handle_packet m =
    if negb NDEBUG && negb (rx_buf_used m - 8 =? len header)
    then Fault AssertionFailed (consumed m)
    else
      match protocol_find_endpoint_handler (protocol header) qemu_endpoints
      with
      | None => Fault NullHandlerCalled (consumed m)
      | Some h =>
          Ret (if rx_buf_used m - 8 >? len header
               then PACKET_BUFFER_HAS_DATA else PACKET_PROCESSED)
              (add_dispatched h (decoded_packet m) (consumed m))
      end.
Proof.
  intros header Hs Hl Hu Hf. subst header.
  apply Z.eqb_eq in Hs. apply Z.eqb_eq in Hf.
  assert (Hl' : (len (header_of (rx_buffer m)) >? QEMU_MAX_DATA_LEN) = false)
    by (rewrite Z.gtb_ltb; apply Z.ltb_ge; lia).
  apply Z.ltb_ge in Hu.
  unfold _qemu_handle_packet, _qemu_read_header, protocol_get_rx_buffer,
    protocol_get_rx_buf_used, bind, get, ret.
  fold (header_of (rx_buffer m)).
  rewrite Hs, Hl'. cbn [negb]. rewrite Hu.
  unfold decoded_packet, consumed, assert.
  destruct (protocol_find_endpoint_handler
              (protocol (header_of (rx_buffer m))) qemu_endpoints) as [h|];
    cbn -[Z.add Z.sub Z.eqb Z.gtb memmove header_of load16 ntohs];
    rewrite Hf; cbn [negb];
    destruct NDEBUG; cbn -[Z.add Z.sub Z.eqb Z.gtb memmove header_of];
    change (rx_buf_used m
            + - (sizeof_QemuCommChannelFooter + sizeof_QemuCommChannelHeader))
      with (rx_buf_used m - 8);
    destruct (rx_buf_used m - 8 =? len (header_of (rx_buffer m)));
    cbn -[Z.add Z.sub Z.eqb Z.gtb memmove header_of];
    try reflexivity;
    destruct (rx_buf_used m - 8 >? len (header_of (rx_buffer m)));
    reflexivity.
Qed.

(** A frame at the front of the buffer: the header read from it, its footer,
    and what the consume step leaves at the front. *)
Section FrameAtFront.

Variables (p : Z) (payload rest : list byte).
Hypothesis Hsig : 0 <= QEMU_HEADER_SIGNATURE < 65536.
Hypothesis Hfsig : 0 <= QEMU_FOOTER_SIGNATURE < 65536.
Hypothesis Hp : 0 <= p < 65536.
Hypothesis Hlen : Z.of_nat (length payload) < 65536.

Lemma header_of_qemu_frame :
  header_of (qemu_frame p payload ++ rest)
  = mkHeader QEMU_HEADER_SIGNATURE p (Z.of_nat (length payload)).
Proof.
  unfold qemu_frame.
  change (store16 (htons QEMU_HEADER_SIGNATURE) ++ store16 (htons p)
          ++ store16 (htons (Z.of_nat (length payload)))
          ++ payload ++ store16 (htons QEMU_FOOTER_SIGNATURE))
    with (header_bytes (mkHeader (htons QEMU_HEADER_SIGNATURE) (htons p)
                          (htons (Z.of_nat (length payload))))
          ++ payload ++ store16 (htons QEMU_FOOTER_SIGNATURE)).
  rewrite <- app_assoc. apply header_of_header_bytes; lia.
Qed.

Lemma footer_of_qemu_frame :
  ntohs (load16 (qemu_frame p payload ++ rest)
                (Z.of_nat (length payload) + sizeof_QemuCommChannelHeader))
  = QEMU_FOOTER_SIGNATURE.
Proof.
  unfold qemu_frame, sizeof_QemuCommChannelHeader.
  rewrite <- !app_assoc.
  rewrite (load16_skip2 _ _ (Z.of_nat (length payload) + 6)) by lia.
  rewrite (load16_skip2 _ _ (Z.of_nat (length payload) + 6 - 2)) by lia.
  rewrite (load16_skip2 _ _ (Z.of_nat (length payload) + 6 - 2 - 2)) by lia.
  replace (Z.of_nat (length payload) + 6 - 2 - 2 - 2)
    with (Z.of_nat (length payload) + 0) by lia.
  rewrite load16_app by lia.
  rewrite load16_store16 by apply htons_range.
  now apply ntohs_htons.
Qed.

Lemma memmove_qemu_frame :
  firstn (length payload)
         (memmove (qemu_frame p payload ++ rest) 0
                  sizeof_QemuCommChannelHeader (Z.of_nat (length payload)))
  = payload.
Proof.
  unfold memmove, qemu_frame, sizeof_QemuCommChannelHeader, store16.
  change (Z.to_nat 0) with 0%nat. change (Z.to_nat 6) with 6%nat.
  rewrite Nat2Z.id. cbn [app firstn skipn].
  rewrite <- app_assoc, firstn_length_app.
  apply firstn_length_app.
Qed.

End FrameAtFront.

(** Decoding a buffer that starts with a frame. *)
Lemma decode_frame_at_front (m : machine) (p : Z) (payload rest : list byte) :
  0 <= QEMU_HEADER_SIGNATURE < 65536 ->
  0 <= QEMU_FOOTER_SIGNATURE < 65536 ->
  0 <= p < 65536 ->
  Z.of_nat (length payload) <= QEMU_MAX_DATA_LEN ->
  QEMU_MAX_DATA_LEN < 65536 ->
  rx_buffer m = qemu_frame p payload ++ rest ->
  Z.of_nat (length payload) + 8 <= rx_buf_used m ->
  _qemu_handle_packet m =
    if negb NDEBUG
       && negb (rx_buf_used m - 8 =? Z.of_nat (length payload))
    then Fault AssertionFailed (consumed m)
    else
      match protocol_find_endpoint_handler p qemu_endpoints with
      | None => Fault NullHandlerCalled (consumed m)
      | Some h =>
          Ret (if rx_buf_used m - 8 >? Z.of_nat (length payload)
               then PACKET_BUFFER_HAS_DATA else PACKET_PROCESSED)
              (add_dispatched h
                 (mkPacket 0 payload (Z.of_nat (length payload))
                           transport_qemu_send_data)
                 (consumed m))
      end.
Proof.
  intros Hsig Hfsig Hp Hlen Hmax Hbuf Hused.
  assert (Hh : header_of (rx_buffer m)
               = mkHeader QEMU_HEADER_SIGNATURE p
                          (Z.of_nat (length payload)))
    by (rewrite Hbuf; apply header_of_qemu_frame; lia).
  assert (Hd : decoded_packet m
               = mkPacket 0 payload (Z.of_nat (length payload))
                          transport_qemu_send_data).
  { unfold decoded_packet, consumed. rewrite Hh. cbn [len rx_buffer set_rx].
    rewrite Hbuf, Nat2Z.id. now rewrite memmove_qemu_frame. }
  rewrite handle_validated; rewrite Hh; cbn [signature protocol len].
  - now rewrite Hd.
  - reflexivity.
  - assumption.
  - unfold sizeof_QemuCommChannelHeader, sizeof_QemuCommChannelFooter. lia.
  - rewrite Hbuf. apply footer_of_qemu_frame; lia.
Qed.

Lemma length_qemu_frame p payload :
  Z.of_nat (length (qemu_frame p payload)) = Z.of_nat (length payload) + 8.
Proof.
  unfold qemu_frame, store16. cbn [app length].
  rewrite length_app. cbn [length]. lia.
Qed.

(** Appending a frame to an empty buffer puts it at the front. *)
Lemma append_frame_to_empty (rx : machine) (frame : list byte) :
  rx_buf_used rx = 0 ->
  Z.of_nat (length frame) <= RX_BUFFER_SIZE ->
  protocol_rx_buffer_append frame rx =
    Ret 0 (set_rx (frame ++ skipn (length frame) (rx_buffer rx))
                  (Z.of_nat (length frame)) rx).
Proof.
  intros Hu Hfit. unfold protocol_rx_buffer_append. rewrite Hu.
  assert (Hc : (0 + Z.of_nat (length frame) >? RX_BUFFER_SIZE) = false)
    by (rewrite Z.gtb_ltb; apply Z.ltb_ge; lia).
  rewrite Hc. reflexivity.
Qed.

(** What [qemu_send_data] writes: one frame of protocol [QemuProtocol_SPP]
    whose payload is the length, the endpoint and the data. *)
Lemma qemu_send_data_emits (m : machine) (endpoint : Z) (data : list byte) :
  is_qemu m <> 0 ->
  qemu_send_data endpoint data (Z.of_nat (length data)) m =
    Ret tt
        (set_hw_tx
           (hw_tx m
            ++ qemu_frame QemuProtocol_SPP
                 (store16 (htons (Z.of_nat (length data)))
                  ++ store16 (htons endpoint) ++ data)) m).
Proof.
  intros Hq. apply Z.eqb_neq in Hq.
  unfold qemu_send_data, bind, get. rewrite Hq.
  unfold qemu_frame, header_bytes, hw_qemu_write, xSemaphoreTake,
    xSemaphoreGive, ret, set_hw_tx.
  cbn [signature protocol len hw_tx is_qemu rx_buffer rx_buf_used hw_rx
       dispatched log].
  rewrite Nat2Z.id, firstn_all.
  replace (Z.of_nat (length (store16 (htons (Z.of_nat (length data)))
                             ++ store16 (htons endpoint) ++ data)))
    with (Z.of_nat (length data) + 4)
    by (unfold store16; cbn [app length]; lia).
  now rewrite <- !app_assoc.
Qed.

(** ** The worker loop ends *)

Ltac decoder_branch :=
  match goal with
  | |- context [if ?c then _ else _] => destruct c eqn:?
  | |- context [match protocol_find_endpoint_handler ?p ?t with _ => _ end] =>
      destruct (protocol_find_endpoint_handler p t) eqn:?
  end; cbn -[Z.add Z.sub Z.eqb Z.gtb Z.ltb Z.opp memmove header_of load16
             ntohs].

(** The decoder has no loop of its own. *)
Lemma handle_total m : _qemu_handle_packet m <> OutOfFuel.
Proof.
  unfold _qemu_handle_packet, _qemu_read_header, protocol_get_rx_buffer,
    protocol_get_rx_buf_used, protocol_rx_buffer_pointer_adjust,
    protocol_buffer_lock, protocol_buffer_unlock, call_handler, assert, LOG,
    bind, get, ret, modify, raise.
  repeat decoder_branch; discriminate.
Qed.



Lemma body_total m : _qemu_thread_body m <> OutOfFuel.
Proof.
  unfold _qemu_thread_body, hw_qemu_read, protocol_rx_buffer_append,
    protocol_rx_buffer_reset, vTaskDelay, bind, modify, ret.
  repeat match goal with
         | |- context [if ?c then _ else _] => destruct c
         end;
    match goal with
    | |- context [_qemu_handle_packet ?x] =>
        pose proof (handle_total x);
        destruct (_qemu_handle_packet x) as [[] ?| |]
    end; cbn; congruence.
Qed.


(** More fuel does not change a result. *)
Lemma worker_loop_more_fuel (fuel extra : nat) (m : machine) :
  _qemu_thread_while fuel m <> OutOfFuel ->
  _qemu_thread_while (fuel + extra) m = _qemu_thread_while fuel m.
Proof.
  revert m. induction fuel as [|fuel IH]; intros m Hr.
  - now contradiction Hr.
  - cbn [_qemu_thread_while Nat.add] in *. unfold bind in *.
    destruct (_qemu_thread_body m) as [[] m'| |]; try reflexivity.
    now apply IH.
Qed.

End Decoder.



Section Claims.

Context {hdrs : QemuHeaders}.

(** C9: a header with a valid signature and a declared length above
    [QEMU_MAX_DATA_LEN] makes the decoder return [PACKET_INVALID] at the size
    check: the only effect is the log line "Invalid packet size", and the
    same holds for every buffer with the same six header bytes, whatever lies
    behind them, so no byte of a footer is looked at. *)
Theorem oversize_rejected_before_footer (m : machine) :
  signature (header_of (rx_buffer m)) = QEMU_HEADER_SIGNATURE ->
  QEMU_MAX_DATA_LEN < len (header_of (rx_buffer m)) ->
  _qemu_handle_packet m =
    Ret PACKET_INVALID
        (add_log (Invalid_packet_size (len (header_of (rx_buffer m)))) m)
  /\ (forall m' : machine,
        firstn 6 (rx_buffer m') = firstn 6 (rx_buffer m) ->
        _qemu_handle_packet m' =
          Ret PACKET_INVALID
              (add_log (Invalid_packet_size (len (header_of (rx_buffer m))))
                       m')).
Proof.
  intros Hs Hl. split.
  - apply handle_oversize; [assumption | lia].
  - intros m' Hm'.
    assert (Hh : header_of (rx_buffer m') = header_of (rx_buffer m))
      by (rewrite <- (header_of_firstn (rx_buffer m')), Hm';
          apply header_of_firstn).
    rewrite <- Hh. apply handle_oversize; rewrite Hh; [assumption | lia].
Qed.

(** C10: when the header passes the signature and the size checks and the
    used-length is below header size + declared length + footer size, the
    decoder returns [PACKET_MORE_DATA_REQD]; it writes one log line and
    leaves the buffer's bytes and used-length (and everything else) as they
    were. *)
Theorem incomplete_frame_left_untouched (m : machine) :
  signature (header_of (rx_buffer m)) = QEMU_HEADER_SIGNATURE ->
  len (header_of (rx_buffer m)) <= QEMU_MAX_DATA_LEN ->
  rx_buf_used m < sizeof_QemuCommChannelHeader
                  + len (header_of (rx_buffer m))
                  + sizeof_QemuCommChannelFooter ->
  exists m' : machine,
    _qemu_handle_packet m = Ret PACKET_MORE_DATA_REQD m'
    /\ rx_buffer m' = rx_buffer m
    /\ rx_buf_used m' = rx_buf_used m
    /\ dispatched m' = dispatched m
    /\ log m' = log m ++ [More_Data_Required (len (header_of (rx_buffer m)))
                                             (rx_buf_used m)].
Proof.
  intros Hs Hl Hu. eexists. split.
  - apply handle_incomplete; [assumption | assumption | lia].
  - repeat split.
Qed.

(** C4: the decoder reads the six header bytes without looking at the
    used-length.  With fewer than six bytes used it returns what the six
    bytes in memory say, [PACKET_INVALID] or [PACKET_MORE_DATA_REQD]; and for
    every used-length below six there are two buffers with the same used
    bytes, differing only behind them, on which it returns the one and the
    other. *)
Theorem short_buffer_outcome_from_stale_bytes :
  0 <= QEMU_HEADER_SIGNATURE < 65536 ->
  0 <= QEMU_MAX_DATA_LEN < 65536 ->
  QEMU_MAX_DATA_LEN mod 256 <> 255 ->
  (forall m : machine,
      rx_buf_used m < sizeof_QemuCommChannelHeader ->
      exists l : log_line,
        _qemu_handle_packet m =
          Ret (header_verdict (rx_buffer m)) (add_log l m))
  /\ (forall n : Z,
        0 <= n < sizeof_QemuCommChannelHeader ->
        exists m1 m2 : machine,
          rx_buf_used m1 = n /\ rx_buf_used m2 = n
          /\ firstn (Z.to_nat n) (rx_buffer m1)
             = firstn (Z.to_nat n) (rx_buffer m2)
          /\ returned (_qemu_handle_packet m1) = Some PACKET_MORE_DATA_REQD
          /\ returned (_qemu_handle_packet m2) = Some PACKET_INVALID).
Proof.
  intros Hsig Hmax Hlow.
  assert (Hshort : forall m : machine,
      rx_buf_used m < sizeof_QemuCommChannelHeader ->
      exists l : log_line,
        _qemu_handle_packet m =
          Ret (header_verdict (rx_buffer m)) (add_log l m)).
  { intros m Hu. destruct (handle_short m Hu) as [l [Hl _]]. now exists l. }
  split; [exact Hshort|].
  intros n Hn. unfold sizeof_QemuCommChannelHeader in Hn.
  set (front := store16 (htons QEMU_HEADER_SIGNATURE) ++ store16 (htons 0)).
  set (b1 := header_bytes (mkHeader (htons QEMU_HEADER_SIGNATURE) (htons 0)
                                    (htons QEMU_MAX_DATA_LEN))).
  set (b2 := header_bytes (mkHeader (htons QEMU_HEADER_SIGNATURE) (htons 0)
                                    (htons (QEMU_MAX_DATA_LEN + 1)))).
  assert (Hhi : byte.of_Z (htons (QEMU_MAX_DATA_LEN + 1))
                = byte.of_Z (htons QEMU_MAX_DATA_LEN)).
  { assert (QEMU_MAX_DATA_LEN <> 65535)
      by (intros E; rewrite E in Hlow; now apply Hlow).
    apply byte.unsigned_inj. rewrite !byte.unsigned_of_Z.
    unfold byte.wrap. change (2 ^ 8) with 256.
    rewrite !htons_low_byte by lia.
    Z.div_mod_to_equations. lia. }
  assert (Hne : QEMU_MAX_DATA_LEN <> 65535)
    by (intros E; rewrite E in Hlow; now apply Hlow).
  assert (Hh1 : header_of b1 = mkHeader QEMU_HEADER_SIGNATURE 0
                                        QEMU_MAX_DATA_LEN).
  { unfold b1. rewrite <- (app_nil_r (header_bytes _)).
    apply header_of_header_bytes; lia. }
  assert (Hh2 : header_of b2 = mkHeader QEMU_HEADER_SIGNATURE 0
                                        (QEMU_MAX_DATA_LEN + 1)).
  { unfold b2. rewrite <- (app_nil_r (header_bytes _)).
    apply header_of_header_bytes; lia. }
  exists (set_rx b1 n boot), (set_rx b2 n boot).
  repeat split.
  - cbn [rx_buffer set_rx]. unfold b1, b2, header_bytes, store16.
    cbn [signature protocol len app]. rewrite Hhi.
    assert (Hc : n = 0 \/ n = 1 \/ n = 2 \/ n = 3 \/ n = 4 \/ n = 5) by lia.
    destruct Hc as [-> | [-> | [-> | [-> | [-> | ->]]]]]; reflexivity.
  - destruct (Hshort (set_rx b1 n boot)) as [l Hl]; [exact (proj2 Hn)|].
    rewrite Hl. cbn [returned rx_buffer set_rx]. unfold header_verdict.
    rewrite Hh1. cbn [signature len]. rewrite Z.eqb_refl. cbn [negb].
    now rewrite Z.gtb_ltb, Z.ltb_irrefl.
  - destruct (Hshort (set_rx b2 n boot)) as [l Hl]; [exact (proj2 Hn)|].
    rewrite Hl. cbn [returned rx_buffer set_rx]. unfold header_verdict.
    rewrite Hh2. cbn [signature len]. rewrite Z.eqb_refl. cbn [negb].
    assert (Hg : (QEMU_MAX_DATA_LEN + 1 >? QEMU_MAX_DATA_LEN) = true)
      by (apply Z.gtb_lt; lia).
    now rewrite Hg.
Qed.

(** C1, as the code has it: with the channel enabled and a handler
    registered for [QemuProtocol_SPP], [qemu_send_data] writes one frame, and
    decoding that frame from an empty buffer returns [PACKET_PROCESSED] after
    one call of the [QemuProtocol_SPP] handler.  The packet handed over has
    endpoint 0 and, as payload, the two-byte length, the two-byte endpoint
    and then the data: the wrapper stays in front of the data, and the
    protocol that is resolved is [QemuProtocol_SPP], whatever the
    endpoint. *)
Theorem send_then_decode_keeps_wrapper
  (m rx : machine) (endpoint : Z) (data : list byte) (h : EndpointHandler) :
  is_qemu m <> 0 ->
  0 <= QEMU_HEADER_SIGNATURE < 65536 ->
  0 <= QEMU_FOOTER_SIGNATURE < 65536 ->
  0 <= QemuProtocol_SPP < 65536 ->
  Z.of_nat (length data) + 4 <= QEMU_MAX_DATA_LEN ->
  QEMU_MAX_DATA_LEN < 65536 ->
  Z.of_nat (length data) + 12 <= RX_BUFFER_SIZE ->
  rx_buf_used rx = 0 ->
  protocol_find_endpoint_handler QemuProtocol_SPP qemu_endpoints = Some h ->
  exists (wire : list byte) (m' rx' : machine),
    qemu_send_data endpoint data (Z.of_nat (length data)) m = Ret tt m'
    /\ hw_tx m' = hw_tx m ++ wire
    /\ protocol (header_of wire) = QemuProtocol_SPP
    /\ (protocol_rx_buffer_append wire ;; _qemu_handle_packet) rx
       = Ret PACKET_PROCESSED rx'
    /\ dispatched rx'
       = dispatched rx
         ++ [(h, mkPacket 0
                   (store16 (htons (Z.of_nat (length data)))
                    ++ store16 (htons endpoint) ++ data)
                   (Z.of_nat (length data) + 4)
                   transport_qemu_send_data)]
    /\ rx_buf_used rx' = Z.of_nat (length data) + 4.
Proof.
  intros Hq Hsig Hfsig Hspp Hlen Hmax Hfit Hu Hh.
  set (inner := store16 (htons (Z.of_nat (length data)))
                ++ store16 (htons endpoint) ++ data).
  assert (Hinner : Z.of_nat (length inner) = Z.of_nat (length data) + 4)
    by (unfold inner, store16; cbn [app length]; lia).
  pose proof (length_qemu_frame QemuProtocol_SPP inner) as Hframe.
  exists (qemu_frame QemuProtocol_SPP inner). eexists. eexists.
  split; [now apply qemu_send_data_emits|].
  split; [reflexivity|].
  split.
  { rewrite <- (app_nil_r (qemu_frame _ _)), header_of_qemu_frame by lia.
    reflexivity. }
  unfold bind at 1. rewrite append_frame_to_empty by lia.
  rewrite (decode_frame_at_front _ QemuProtocol_SPP inner
             (skipn (length (qemu_frame QemuProtocol_SPP inner))
                    (rx_buffer rx)));
    try (cbn [rx_buffer rx_buf_used set_rx]; lia); try reflexivity.
  cbn [rx_buf_used set_rx]. rewrite Hh.
  replace (Z.of_nat (length (qemu_frame QemuProtocol_SPP inner)) - 8)
    with (Z.of_nat (length inner)) by lia.
  rewrite Z.eqb_refl, andb_false_r, Z.gtb_ltb, Z.ltb_irrefl.
  split; [reflexivity|].
  split.
  - cbn [dispatched add_dispatched]. rewrite Hinner, consumed_dispatched.
    reflexivity.
  - cbn [rx_buf_used add_dispatched]. rewrite consumed_used.
    cbn [rx_buf_used set_rx]. lia.
Qed.

(** C2, what the code does: a complete frame that passes every check and
    whose protocol has no handler is consumed and logged as "Unknown
    protocol", and then the NULL handler is called: the decoder ends in a
    fault and returns no outcome. *)
Theorem unknown_protocol_calls_null_handler
  (m : machine) (p : Z) (payload rest : list byte) :
  0 <= QEMU_HEADER_SIGNATURE < 65536 ->
  0 <= QEMU_FOOTER_SIGNATURE < 65536 ->
  0 <= p < 65536 ->
  Z.of_nat (length payload) <= QEMU_MAX_DATA_LEN ->
  QEMU_MAX_DATA_LEN < 65536 ->
  rx_buffer m = qemu_frame p payload ++ rest ->
  rx_buf_used m = Z.of_nat (length payload) + 8 ->
  protocol_find_endpoint_handler p qemu_endpoints = None ->
  _qemu_handle_packet m = Fault NullHandlerCalled (consumed m)
  /\ log (consumed m) = log m ++ [Unknown_protocol p]
  /\ rx_buf_used (consumed m) = Z.of_nat (length payload)
  /\ dispatched (consumed m) = dispatched m.
Proof.
  intros Hsig Hfsig Hp Hlen Hmax Hbuf Hused Hnone.
  split.
  - rewrite (decode_frame_at_front m p payload rest) by (assumption || lia).
    rewrite Hnone, Hused.
    replace (Z.of_nat (length payload) + 8 - 8)
      with (Z.of_nat (length payload)) by lia.
    now rewrite Z.eqb_refl, andb_false_r.
  - repeat split.
    + unfold consumed. rewrite Hbuf, header_of_qemu_frame by lia.
      cbn [protocol]. now rewrite Hnone.
    + rewrite consumed_used. lia.
    + apply consumed_dispatched.
Qed.

(** C8, what the code does: the consume step of a validated frame leaves the
    payload at the front and takes header size plus footer size off the
    used-length; when the buffer holds more than the frame, the used-length
    is then above the declared length, and with [assert] compiled in the
    decoder ends in the failed assertion. *)
Theorem trailing_bytes_fail_the_assertion
  (m : machine) (p : Z) (payload rest : list byte) :
  0 <= QEMU_HEADER_SIGNATURE < 65536 ->
  0 <= QEMU_FOOTER_SIGNATURE < 65536 ->
  0 <= p < 65536 ->
  Z.of_nat (length payload) <= QEMU_MAX_DATA_LEN ->
  QEMU_MAX_DATA_LEN < 65536 ->
  rx_buffer m = qemu_frame p payload ++ rest ->
  Z.of_nat (length payload) + 8 < rx_buf_used m ->
  firstn (length payload) (rx_buffer (consumed m)) = payload
  /\ rx_buf_used (consumed m) = rx_buf_used m - 8
  /\ rx_buf_used (consumed m) <> len (header_of (rx_buffer m))
  /\ (NDEBUG = false ->
      _qemu_handle_packet m = Fault AssertionFailed (consumed m)).
Proof.
  intros Hsig Hfsig Hp Hlen Hmax Hbuf Hused.
  assert (Hh : header_of (rx_buffer m)
               = mkHeader QEMU_HEADER_SIGNATURE p
                          (Z.of_nat (length payload)))
    by (rewrite Hbuf; apply header_of_qemu_frame; lia).
  repeat split.
  - rewrite consumed_buffer, Hh, Hbuf. cbn [len].
    apply memmove_qemu_frame.
  - rewrite consumed_used, Hh. cbn [len]. lia.
  - intros Hdebug.
    rewrite (decode_frame_at_front m p payload rest) by (assumption || lia).
    rewrite Hdebug. cbn [negb andb].
    destruct (Z.eqb_spec (rx_buf_used m - 8) (Z.of_nat (length payload)));
      [lia | reflexivity].
Qed.

(** C5, as the code has it: in an iteration of the worker loop whose append
    fails, the buffer is reset and the loop ends with that iteration,
    nothing is dispatched and the used-length is 0 at the end; but the
    decoder still runs once in that iteration, on the reset buffer, where it
    stops at one of its early exits and writes its log line. *)
Theorem failed_append_resets_and_exits (m : machine) (fuel : nat) :
  firstn 64 (hw_rx m) <> [] ->
  RX_BUFFER_SIZE < rx_buf_used m + Z.of_nat (length (firstn 64 (hw_rx m))) ->
  exists l : log_line,
    _qemu_thread_while (S fuel) m =
      Ret tt (add_log l (set_rx (rx_buffer m) 0
                                (set_hw_rx (skipn 64 (hw_rx m)) m)))
    /\ (l = Invalid_header_signature (signature (header_of (rx_buffer m)))
        \/ l = Invalid_packet_size (len (header_of (rx_buffer m)))
        \/ l = More_Data_Required (len (header_of (rx_buffer m))) 0).
Proof.
  intros Hne Hfull.
  set (m1 := set_rx (rx_buffer m) 0 (set_hw_rx (skipn 64 (hw_rx m)) m)).
  destruct (handle_short m1) as [l [Hl Hcases]];
    [cbn; unfold sizeof_QemuCommChannelHeader; lia|].
  exists l. split; [|exact Hcases].
  assert (Hlen : (Z.of_nat (length (firstn 64 (hw_rx m))) =? 0) = false).
  { apply Z.eqb_neq. destruct (firstn 64 (hw_rx m)); [congruence|].
    cbn [length]. lia. }
  assert (Hgt : (rx_buf_used m + Z.of_nat (length (firstn 64 (hw_rx m)))
                 >? RX_BUFFER_SIZE) = true) by (apply Z.gtb_lt; lia).
  cbn [_qemu_thread_while].
  unfold _qemu_thread_body, bind, hw_qemu_read, protocol_rx_buffer_append,
    protocol_rx_buffer_reset, modify, ret, vTaskDelay.
  change (Z.to_nat 64) with 64%nat.
  rewrite Hlen. cbn [negb rx_buf_used set_hw_rx hw_rx rx_buffer].
  rewrite Hgt. cbn [Z.ltb Z.compare].
  change (set_rx (rx_buffer (set_hw_rx (skipn 64 (hw_rx m)) m)) 0
                 (set_hw_rx (skipn 64 (hw_rx m)) m)) with m1.
  rewrite Hl.
  destruct (header_verdict_cases (rx_buffer m1)) as [Hv|Hv]; rewrite Hv;
    reflexivity.
Qed.

End Claims.

(** ** Runs on the concrete headers *)

Ltac by_computation :=
  vm_compute;
  first [ reflexivity
        | discriminate
        | split; [discriminate | reflexivity]
        | let H := fresh in intro H; discriminate H ].

Section DebugBuild.

#[local] Existing Instance debug_build.

(** C1, the claim as stated fails: "ping" sent to endpoint 7 and decoded
    again is handed to the handler of protocol 1 in a packet of endpoint 0
    whose payload is 00 04 00 07 "ping", not "ping". *)
Lemma ping_roundtrip_delivers_wrapper :
  exists rx' : machine,
    loopback 7 ping = Ret PACKET_PROCESSED rx'
    /\ dispatched rx' =
         [(1001, mkPacket 0 (bytes_of [0; 4; 0; 7; 0x70; 0x69; 0x6e; 0x67])
                          8 transport_qemu_send_data)]
    /\ dispatched_payloads rx' <> [ping]
    /\ map (fun hp => packet_endpoint (snd hp)) (dispatched rx') <> [7]
    /\ QemuProtocol_SPP <> 7.
Proof.
  eexists. split; [vm_compute; reflexivity|].
  repeat split; by_computation.
Qed.

(** Witness of C1: "ping" to endpoint 7, between two machines after
    start-up. *)
Lemma send_then_decode_ping :
  exists (wire : list byte) (m' rx' : machine),
    qemu_send_data 7 ping 4 boot = Ret tt m'
    /\ hw_tx m' = hw_tx boot ++ wire
    /\ protocol (header_of wire) = QemuProtocol_SPP
    /\ (protocol_rx_buffer_append wire ;; _qemu_handle_packet) boot
       = Ret PACKET_PROCESSED rx'
    /\ dispatched rx'
       = dispatched boot
         ++ [(1001, mkPacket 0
                      (store16 (htons 4) ++ store16 (htons 7) ++ ping)
                      (4 + 4) transport_qemu_send_data)]
    /\ rx_buf_used rx' = 4 + 4.
Proof.
  apply (send_then_decode_keeps_wrapper boot boot 7 ping 1001);
    by_computation.
Defined.

(** Witness of C2: the frame of "ping" for protocol 99, which has no
    handler, alone in the buffer. *)
Lemma unknown_protocol_99_faults :
  _qemu_handle_packet (received (qemu_frame 99 ping))
  = Fault NullHandlerCalled (consumed (received (qemu_frame 99 ping)))
  /\ log (consumed (received (qemu_frame 99 ping)))
     = log (received (qemu_frame 99 ping)) ++ [Unknown_protocol 99]
  /\ rx_buf_used (consumed (received (qemu_frame 99 ping)))
     = Z.of_nat (length ping)
  /\ dispatched (consumed (received (qemu_frame 99 ping)))
     = dispatched (received (qemu_frame 99 ping)).
Proof.
  apply (unknown_protocol_calls_null_handler
           (received (qemu_frame 99 ping)) 99 ping
           (skipn 12 (rx_buffer boot)));
    by_computation.
Defined.

(** C3, a stream on which the code is not transparent to chunking: the frame
    of "hi" in one read is dispatched; the same bytes in two reads, the first
    of one byte, are not: the decoder reads a signature of which one byte has
    arrived, returns [PACKET_INVALID], and the buffer is reset twice. *)
Theorem split_header_loses_the_frame :
  firstn 1 hi_frame ++ skipn 1 hi_frame = hi_frame
  /\ payloads_after [hi_frame] = Some [bytes_of [0x68; 0x69]]
  /\ payloads_after [firstn 1 hi_frame; skipn 1 hi_frame] = Some []
  /\ option_map log (final (qemu_rx_events 4
                               [firstn 1 hi_frame; skipn 1 hi_frame] boot))
     = Some [Invalid_header_signature 0xFE00;
             Invalid_header_signature 0xED00].
Proof. repeat split; vm_compute; reflexivity. Qed.

(** Witness of C4: five bytes used, and the sixth byte in memory decides. *)
Lemma five_used_bytes_two_outcomes :
  exists m1 m2 : machine,
    rx_buf_used m1 = 5 /\ rx_buf_used m2 = 5
    /\ firstn (Z.to_nat 5) (rx_buffer m1) = firstn (Z.to_nat 5) (rx_buffer m2)
    /\ returned (_qemu_handle_packet m1) = Some PACKET_MORE_DATA_REQD
    /\ returned (_qemu_handle_packet m2) = Some PACKET_INVALID.
Proof.
  apply (proj2 (short_buffer_outcome_from_stale_bytes
                  ltac:(by_computation) ltac:(by_computation)
                  ltac:(by_computation)) 5);
    by_computation.
Defined.

(** C5, the claim as stated fails: after [overflow_chunks] the buffer is
    full, the append of the next read fails, and in that same iteration the
    decoder runs on the reset buffer: its line "More Data Required" for a
    used-length of 0 is in the log. *)
Lemma decoder_runs_after_failed_append :
  exists m m' : machine,
    qemu_rx_events 4 overflow_chunks boot = Ret tt m
    /\ rx_buf_used m = RX_BUFFER_SIZE
    /\ returned (protocol_rx_buffer_append overflow_last m) = Some (-1)
    /\ qemu_rx_event 1 overflow_last m = Ret tt m'
    /\ log m' = log m ++ [More_Data_Required 2048 0]
    /\ rx_buf_used m' = 0.
Proof.
  eexists. eexists. split; [vm_compute; reflexivity|].
  split; [vm_compute; reflexivity|].
  split; [vm_compute; reflexivity|].
  split; [vm_compute; reflexivity|].
  split; vm_compute; reflexivity.
Qed.

(** Witness of C5: the full buffer with [overflow_last] at the transport. *)
Lemma overflow_iteration :
  exists l : log_line,
    _qemu_thread_while 1 overflow_machine =
      Ret tt (add_log l (set_rx (rx_buffer overflow_machine) 0
                           (set_hw_rx (skipn 64 (hw_rx overflow_machine))
                                      overflow_machine)))
    /\ (l = Invalid_header_signature
              (signature (header_of (rx_buffer overflow_machine)))
        \/ l = Invalid_packet_size
                 (len (header_of (rx_buffer overflow_machine)))
        \/ l = More_Data_Required
                 (len (header_of (rx_buffer overflow_machine))) 0).
Proof.
  apply (failed_append_resets_and_exits overflow_machine 0); by_computation.
Defined.

(** C6, a buffer on which the claim fails: after six bytes that are no frame
    the buffer is reset and keeps 0xFF in its sixth byte; the first five
    bytes of [max_frame] are then the five used bytes, and the decoder reads
    the length 0x08FF, above the maximum: it returns [PACKET_INVALID], and
    the worker resets the buffer. *)
Theorem five_bytes_over_stale_memory_are_invalid :
  exists m m5 m' m'' : machine,
    qemu_rx_event 4 stale_traffic boot = Ret tt m
    /\ rx_buf_used m = 0
    /\ protocol_rx_buffer_append (firstn 5 max_frame) m = Ret 0 m5
    /\ rx_buf_used m5 = 5
    /\ firstn 5 (rx_buffer m5) = firstn 5 max_frame
    /\ _qemu_handle_packet m5 = Ret PACKET_INVALID m'
    /\ log m' = log m5 ++ [Invalid_packet_size 0x08FF]
    /\ qemu_rx_event 4 (firstn 5 max_frame) m = Ret tt m''
    /\ rx_buf_used m'' = 0.
Proof.
  do 4 eexists.
  split; [vm_compute; reflexivity|].
  split; [vm_compute; reflexivity|].
  split; [vm_compute; reflexivity|].
  split; [vm_compute; reflexivity|].
  split; [vm_compute; reflexivity|].
  split; [vm_compute; reflexivity|].
  split; [vm_compute; reflexivity|].
  split; vm_compute; reflexivity.
Qed.

(** Witness of C8: the frames of "a" and "b" in the buffer. *)
Lemma second_frame_fails_the_assertion :
  firstn 1 (rx_buffer (consumed (received (frame_a ++ frame_b))))
  = bytes_of [0x61]
  /\ rx_buf_used (consumed (received (frame_a ++ frame_b)))
     = rx_buf_used (received (frame_a ++ frame_b)) - 8
  /\ rx_buf_used (consumed (received (frame_a ++ frame_b)))
     <> len (header_of (rx_buffer (received (frame_a ++ frame_b))))
  /\ (NDEBUG = false ->
      _qemu_handle_packet (received (frame_a ++ frame_b))
      = Fault AssertionFailed (consumed (received (frame_a ++ frame_b)))).
Proof.
  apply (trailing_bytes_fail_the_assertion
           (received (frame_a ++ frame_b)) 1 (bytes_of [0x61])
           (frame_b ++ skipn 18 (rx_buffer boot)));
    by_computation.
Defined.


(** Witness of C9: a header with the signature and the length 0x0801. *)
Lemma length_2049_rejected :
  _qemu_handle_packet (with_buffer [0xFE; 0xED; 0; 1; 8; 1] [])
  = Ret PACKET_INVALID
        (add_log (Invalid_packet_size 2049)
                 (with_buffer [0xFE; 0xED; 0; 1; 8; 1] [])).
Proof.
  refine (proj1 (oversize_rejected_before_footer
                   (with_buffer [0xFE; 0xED; 0; 1; 8; 1] []) _ _));
    by_computation.
Defined.

(** Witness of C10: seven bytes of a frame that declares four bytes of
    payload. *)
Lemma seven_bytes_need_more_data :
  exists m' : machine,
    _qemu_handle_packet (with_buffer [0xFE; 0xED; 0; 1; 0; 4; 0x70] [])
    = Ret PACKET_MORE_DATA_REQD m'
    /\ rx_buffer m' = rx_buffer (with_buffer [0xFE; 0xED; 0; 1; 0; 4; 0x70] [])
    /\ rx_buf_used m' = 7
    /\ dispatched m' = []
    /\ log m' = [] ++ [More_Data_Required 4 7].
Proof.
  apply (incomplete_frame_left_untouched
           (with_buffer [0xFE; 0xED; 0; 1; 0; 4; 0x70] []));
    by_computation.
Defined.

End DebugBuild.

(** C7, a read on which the claim fails: the frames of "a" and "b" arrive in
    one read.  With [assert] compiled in, the decoder ends in the failed
    assertion before any handler is called.  With [assert] compiled out, "a"
    is dispatched and the decoder returns [PACKET_BUFFER_HAS_DATA]; the
    worker calls it again, it reads the payload "a" and what follows as a
    header, returns [PACKET_INVALID], and the buffer is reset: "b" is never
    dispatched. *)
Theorem second_frame_of_one_read_is_lost :
  (exists m : machine,
      qemu_rx_event (hdrs := debug_build) 4 (frame_a ++ frame_b)
                    (boot (hdrs := debug_build))
      = Fault AssertionFailed m
      /\ dispatched_payloads m = [])
  /\ (exists m : machine,
        qemu_rx_event (hdrs := release_build) 4 (frame_a ++ frame_b)
                      (boot (hdrs := release_build))
        = Ret tt m
        /\ dispatched_payloads m = [bytes_of [0x61]]
        /\ log m = [Invalid_header_signature 0x61ED]
        /\ rx_buf_used m = 0).
Proof.
  split; eexists; (split; [vm_compute; reflexivity|]);
    repeat split; vm_compute; reflexivity.
Qed.


(** * More of qemu.c *)

(** ** Lists and memory *)

Lemma firstn_firstn_app {A} (n : nat) (l r : list A) :
  (n <= length l)%nat -> firstn n (firstn n l ++ r) = firstn n l.
Proof.
  intros Hn.
  rewrite <- (firstn_length_app (firstn n l) r) at 2.
  now rewrite length_firstn, Nat.min_l by assumption.
Qed.

Lemma length_memmove_front (buf : list byte) (n : Z) :
  0 <= n -> n + 6 <= Z.of_nat (length buf) ->
  length (memmove buf 0 sizeof_QemuCommChannelHeader n) = length buf.
Proof.
  intros Hn Hfit. unfold memmove, sizeof_QemuCommChannelHeader.
  change (Z.to_nat 0) with 0%nat. change (Z.to_nat 6) with 6%nat.
  cbn [firstn app]. rewrite length_app, length_firstn, !length_skipn. lia.
Qed.

Lemma firstn_memmove_front (buf : list byte) (n : Z) :
  0 <= n -> n + 6 <= Z.of_nat (length buf) ->
  firstn (Z.to_nat n) (memmove buf 0 sizeof_QemuCommChannelHeader n)
  = firstn (Z.to_nat n) (skipn 6 buf).
Proof.
  intros Hn Hfit. unfold memmove, sizeof_QemuCommChannelHeader.
  change (Z.to_nat 0) with 0%nat. change (Z.to_nat 6) with 6%nat.
  cbn [firstn app]. apply firstn_firstn_app. rewrite length_skipn. lia.
Qed.

Lemma length_memcpy (buf : list byte) (dst : Z) (data : list byte) :
  0 <= dst -> dst + Z.of_nat (length data) <= Z.of_nat (length buf) ->
  length (memcpy buf dst data) = length buf.
Proof.
  intros Hd Hfit. unfold memcpy.
  rewrite !length_app, length_firstn, length_skipn. lia.
Qed.

Section DecoderOutcomes.

Context {hdrs : QemuHeaders}.

(** The fourth way out of the decoder: the footer.  The line for an unknown
    protocol is written before the footer is looked at. *)
Lemma handle_bad_footer m :
  signature (header_of (rx_buffer m)) = QEMU_HEADER_SIGNATURE ->
  len (header_of (rx_buffer m)) <= QEMU_MAX_DATA_LEN ->
  len (header_of (rx_buffer m)) + sizeof_QemuCommChannelHeader
    + sizeof_QemuCommChannelFooter <= rx_buf_used m ->
  ntohs (load16 (rx_buffer m)
           (len (header_of (rx_buffer m)) + sizeof_QemuCommChannelHeader))
    <> QEMU_FOOTER_SIGNATURE ->
  _qemu_handle_packet m =
    Ret PACKET_INVALID
      (add_log
         (Invalid_footer_signature
            (ntohs (load16 (rx_buffer m)
                      (len (header_of (rx_buffer m))
                       + sizeof_QemuCommChannelHeader))))
         match protocol_find_endpoint_handler
                 (protocol (header_of (rx_buffer m))) qemu_endpoints with
         | None => add_log (Unknown_protocol
                              (protocol (header_of (rx_buffer m)))) m
         | Some _ => m
         end).
Proof.
  intros Hs Hl Hu Hf.
  apply Z.eqb_eq in Hs. apply Z.eqb_neq in Hf. apply Z.ltb_ge in Hu.
  assert (Hl' : (len (header_of (rx_buffer m)) >? QEMU_MAX_DATA_LEN) = false)
    by (rewrite Z.gtb_ltb; apply Z.ltb_ge; lia).
  unfold _qemu_handle_packet, _qemu_read_header, protocol_get_rx_buffer,
    protocol_get_rx_buf_used, bind, get, ret.
  fold (header_of (rx_buffer m)).
  rewrite Hs, Hl'. cbn [negb]. rewrite Hu.
  destruct (protocol_find_endpoint_handler _ _);
    cbn -[Z.add Z.eqb header_of load16 ntohs]; rewrite Hf; reflexivity.
Qed.

Lemma decoder_paths m : decoder_path m.
Proof.
  destruct (Z.eq_dec (signature (header_of (rx_buffer m)))
                     QEMU_HEADER_SIGNATURE) as [Hs|Hs];
    [|now apply path_signature].
  destruct (Z_lt_le_dec QEMU_MAX_DATA_LEN (len (header_of (rx_buffer m))))
    as [Hl|Hl]; [now apply path_size|].
  destruct (Z_lt_le_dec (rx_buf_used m) (len (header_of (rx_buffer m)) + 8))
    as [Hu|Hu]; [now apply path_incomplete|].
  destruct (Z.eq_dec
              (ntohs (load16 (rx_buffer m)
                        (len (header_of (rx_buffer m)) + 6)))
              QEMU_FOOTER_SIGNATURE) as [Hf|Hf];
    [now apply path_validated | now apply path_footer].
Qed.

(** What the decoder returns is decided by the bytes of the buffer and its
    used-length. *)
Lemma handle_returned_ext m1 m2 :
  rx_buffer m1 = rx_buffer m2 -> rx_buf_used m1 = rx_buf_used m2 ->
  returned (_qemu_handle_packet m1) = returned (_qemu_handle_packet m2).
Proof.
  intros Hb Hu.
  destruct (decoder_paths m1) as [Hs|Hs Hl|Hs Hl Hi|Hs Hl Hc Hf|Hs Hl Hc Hf].
  - rewrite (handle_bad_signature m1), (handle_bad_signature m2);
      rewrite <- ?Hb; auto.
  - rewrite (handle_oversize m1), (handle_oversize m2);
      rewrite <- ?Hb; auto; lia.
  - rewrite (handle_incomplete m1), (handle_incomplete m2);
      rewrite <- ?Hb, <- ?Hu; auto;
      unfold sizeof_QemuCommChannelHeader, sizeof_QemuCommChannelFooter; lia.
  - rewrite (handle_bad_footer m1), (handle_bad_footer m2);
      rewrite <- ?Hb, <- ?Hu; auto;
      unfold sizeof_QemuCommChannelHeader, sizeof_QemuCommChannelFooter; lia.
  - rewrite (handle_validated m1), (handle_validated m2);
      rewrite <- ?Hb, <- ?Hu; auto;
      try (unfold sizeof_QemuCommChannelHeader, sizeof_QemuCommChannelFooter;
           lia).
    destruct (negb NDEBUG && _); [reflexivity|].
    destruct (protocol_find_endpoint_handler _ _); reflexivity.
Qed.

(** A frame the decoder turns down, as invalid or as incomplete, costs
    nothing but log lines: buffer, used-length, transport and dispatch
    record are as before, and the decoder called again says the same. *)
Theorem rejected_buffer_is_left_alone (m m' : machine) (rv : packet_rv) :
  _qemu_handle_packet m = Ret rv m' ->
  rv = PACKET_INVALID \/ rv = PACKET_MORE_DATA_REQD ->
  same_but_log m m'
  /\ returned (_qemu_handle_packet m') = Some rv.
Proof.
  intros Hrun Hrv.
  assert (Hsame : same_but_log m m').
  { destruct (decoder_paths m) as [Hs|Hs Hl|Hs Hl Hi|Hs Hl Hc Hf|Hs Hl Hc Hf].
    - rewrite handle_bad_signature in Hrun by assumption.
      injection Hrun as _ <-. repeat split.
    - rewrite handle_oversize in Hrun by (assumption || lia).
      injection Hrun as _ <-. repeat split.
    - rewrite handle_incomplete in Hrun
        by (try assumption;
            unfold sizeof_QemuCommChannelHeader,
              sizeof_QemuCommChannelFooter; lia).
      injection Hrun as _ <-. repeat split.
    - rewrite handle_bad_footer in Hrun
        by (try assumption;
            unfold sizeof_QemuCommChannelHeader,
              sizeof_QemuCommChannelFooter; lia).
      injection Hrun as _ <-.
      destruct (protocol_find_endpoint_handler _ _); repeat split.
    - rewrite handle_validated in Hrun
        by (try assumption;
            unfold sizeof_QemuCommChannelHeader,
              sizeof_QemuCommChannelFooter; lia).
      destruct (negb NDEBUG && _); [discriminate|].
      destruct (protocol_find_endpoint_handler _ _); [|discriminate].
      injection Hrun as <- _.
      destruct (_ >? _); destruct Hrv; discriminate. }
  split; [exact Hsame|].
  destruct Hsame as (_ & Hb & Hu & _).
  rewrite (handle_returned_ext m' m Hb Hu), Hrun. reflexivity.
Qed.

(** A call of a handler is what the two other outcomes mean: when the decoder
    returns [PACKET_PROCESSED] or [PACKET_BUFFER_HAS_DATA], the header and the
    footer in the buffer were valid, the frame was complete, and exactly one
    packet was handed to the handler of the header's protocol: the declared
    number of bytes that stood behind the six header bytes.  The used-length
    went down by eight, and [PACKET_PROCESSED] says that nothing is left
    behind the payload. *)
Theorem dispatch_delivers_bytes_behind_header
  (m m' : machine) (rv : packet_rv) :
  rx_buf_used m <= Z.of_nat (length (rx_buffer m)) ->
  _qemu_handle_packet m = Ret rv m' ->
  rv = PACKET_PROCESSED \/ rv = PACKET_BUFFER_HAS_DATA ->
  exists h : EndpointHandler,
    protocol_find_endpoint_handler
      (protocol (header_of (rx_buffer m))) qemu_endpoints = Some h
    /\ dispatched m'
       = dispatched m
         ++ [(h, mkPacket 0
                   (firstn (Z.to_nat (len (header_of (rx_buffer m))))
                           (skipn 6 (rx_buffer m)))
                   (len (header_of (rx_buffer m)))
                   transport_qemu_send_data)]
    /\ signature (header_of (rx_buffer m)) = QEMU_HEADER_SIGNATURE
    /\ len (header_of (rx_buffer m)) <= QEMU_MAX_DATA_LEN
    /\ len (header_of (rx_buffer m)) + 8 <= rx_buf_used m
    /\ rx_buf_used m' = rx_buf_used m - 8
    /\ (rv = PACKET_PROCESSED <->
        rx_buf_used m = len (header_of (rx_buffer m)) + 8).
Proof.
  intros Hfit Hrun Hrv.
  pose proof (header_of_len_nonneg (rx_buffer m)) as Hlen.
  destruct (decoder_paths m) as [Hs|Hs Hl|Hs Hl Hi|Hs Hl Hc Hf|Hs Hl Hc Hf].
  - rewrite handle_bad_signature in Hrun by assumption.
    injection Hrun as <- _. destruct Hrv; discriminate.
  - rewrite handle_oversize in Hrun by (assumption || lia).
    injection Hrun as <- _. destruct Hrv; discriminate.
  - rewrite handle_incomplete in Hrun
      by (try assumption;
          unfold sizeof_QemuCommChannelHeader,
            sizeof_QemuCommChannelFooter; lia).
    injection Hrun as <- _. destruct Hrv; discriminate.
  - rewrite handle_bad_footer in Hrun
      by (try assumption;
          unfold sizeof_QemuCommChannelHeader,
            sizeof_QemuCommChannelFooter; lia).
    injection Hrun as <- _. destruct Hrv; discriminate.
  - rewrite handle_validated in Hrun
      by (try assumption;
          unfold sizeof_QemuCommChannelHeader,
            sizeof_QemuCommChannelFooter; lia).
    destruct (negb NDEBUG && _); [discriminate|].
    destruct (protocol_find_endpoint_handler _ _) as [h|]; [|discriminate].
    injection Hrun as <- <-. exists h.
    split; [reflexivity|].
    split.
    { cbn [dispatched add_dispatched]. rewrite consumed_dispatched.
      unfold decoded_packet. rewrite consumed_buffer.
      rewrite firstn_memmove_front by lia. reflexivity. }
    repeat split; try assumption; try reflexivity;
      change (ntohs (load16 (rx_buffer m) 4))
        with (len (header_of (rx_buffer m))).
    + intros Hp. destruct (Z.gtb_spec (rx_buf_used m - 8)
                             (len (header_of (rx_buffer m))));
        [discriminate Hp | lia].
    + intros Hp. destruct (Z.gtb_spec (rx_buf_used m - 8)
                             (len (header_of (rx_buffer m))));
        [lia | reflexivity].
Qed.

End DecoderOutcomes.


(** ** The buffer stays within its bounds *)

Lemma preserves_ret {A} (P : machine -> Prop) (a : A) : preserves P (ret a).
Proof. intros m Hm. exact Hm. Qed.

Lemma preserves_bind {A B} (P : machine -> Prop) (c : M A) (k : A -> M B) :
  preserves P c -> (forall a, preserves P (k a)) -> preserves P (bind c k).
Proof.
  intros Hc Hk m Hm. unfold bind. specialize (Hc m Hm).
  destruct (c m) as [a m'|f m'|]; [apply Hk; exact Hc | exact Hc | exact I].
Qed.

Section Bounds.

Context {hdrs : QemuHeaders}.

Lemma in_bounds_add_log l m :
  buffer_in_bounds m -> buffer_in_bounds (add_log l m).
Proof. intros H. exact H. Qed.

Lemma in_bounds_consumed m :
  buffer_in_bounds m ->
  len (header_of (rx_buffer m)) + 8 <= rx_buf_used m ->
  buffer_in_bounds (consumed m).
Proof.
  intros [Hu Hl] Hc.
  pose proof (header_of_len_nonneg (rx_buffer m)) as Hlen.
  split.
  - rewrite consumed_used. lia.
  - rewrite consumed_buffer, length_memmove_front by lia. exact Hl.
Qed.

Lemma handle_in_bounds : preserves buffer_in_bounds _qemu_handle_packet.
Proof.
  intros m Hm.
  destruct (decoder_paths m) as [Hs|Hs Hl|Hs Hl Hi|Hs Hl Hc Hf|Hs Hl Hc Hf].
  - rewrite handle_bad_signature by assumption. exact Hm.
  - rewrite handle_oversize by (assumption || lia). exact Hm.
  - rewrite handle_incomplete
      by (try assumption;
          unfold sizeof_QemuCommChannelHeader,
            sizeof_QemuCommChannelFooter; lia).
    exact Hm.
  - rewrite handle_bad_footer
      by (try assumption;
          unfold sizeof_QemuCommChannelHeader,
            sizeof_QemuCommChannelFooter; lia).
    destruct (protocol_find_endpoint_handler _ _); exact Hm.
  - rewrite handle_validated
      by (try assumption;
          unfold sizeof_QemuCommChannelHeader,
            sizeof_QemuCommChannelFooter; lia).
    pose proof (in_bounds_consumed m Hm Hc) as Hcons.
    destruct (negb NDEBUG && _); [exact Hcons|].
    destruct (protocol_find_endpoint_handler _ _); exact Hcons.
Qed.

Lemma append_in_bounds data :
  preserves buffer_in_bounds (protocol_rx_buffer_append data).
Proof.
  intros m [Hu Hl]. unfold protocol_rx_buffer_append.
  destruct (Z.gtb_spec (rx_buf_used m + Z.of_nat (length data))
                       RX_BUFFER_SIZE) as [Hfull|Hfits].
  - now split.
  - split; cbn [rx_buf_used rx_buffer set_rx]; [lia|].
    rewrite length_memcpy by lia. exact Hl.
Qed.

Lemma reset_in_bounds : preserves buffer_in_bounds protocol_rx_buffer_reset.
Proof.
  intros m [Hu Hl]. split; cbn [rx_buf_used rx_buffer set_rx]; [lia|exact Hl].
Qed.

Lemma body_in_bounds : preserves buffer_in_bounds _qemu_thread_body.
Proof.
  unfold _qemu_thread_body.
  apply preserves_bind; [intros m Hm; exact Hm|]. intros buf.
  apply preserves_bind.
  { destruct (negb _); [|apply preserves_ret].
    apply preserves_bind; [apply append_in_bounds|]. intros r.
    destruct (r <? 0); [|apply preserves_ret].
    apply preserves_bind; [apply reset_in_bounds|]. intros _.
    apply preserves_ret. }
  intros done.
  apply preserves_bind; [apply handle_in_bounds|]. intros rv.
  apply preserves_bind.
  { destruct rv; try apply preserves_ret.
    apply preserves_bind; [apply reset_in_bounds|]. intros _.
    apply preserves_ret. }
  intros done'.
  apply preserves_bind; [apply preserves_ret|]. intros _.
  apply preserves_ret.
Qed.

Lemma while_in_bounds fuel :
  preserves buffer_in_bounds (_qemu_thread_while fuel).
Proof.
  induction fuel as [|fuel IH]; [intros m Hm; exact I|].
  cbn [_qemu_thread_while].
  apply preserves_bind; [apply body_in_bounds|].
  intros []; [apply preserves_ret | exact IH].
Qed.

Lemma event_in_bounds fuel chunk :
  preserves buffer_in_bounds (qemu_rx_event fuel chunk).
Proof.
  unfold qemu_rx_event, _qemu_thread_wake.
  apply preserves_bind; [intros m Hm; exact Hm|]. intros _.
  apply preserves_bind; [apply preserves_ret|]. intros _.
  apply preserves_bind; [apply while_in_bounds|]. intros _.
  apply preserves_ret.
Qed.

(** Whatever arrives, in whatever chunks, the receive path keeps the buffer
    within its bounds: at every return and at every fault of the worker the
    used-length is between 0 and the capacity and the memory of the buffer
    has the length it had. *)
Theorem receive_path_keeps_buffer_in_bounds
  (fuel : nat) (chunks : list (list byte)) (m : machine) :
  buffer_in_bounds m ->
  match qemu_rx_events fuel chunks m with
  | Ret _ m' => buffer_in_bounds m'
  | Fault _ m' => buffer_in_bounds m'
  | OutOfFuel => True
  end.
Proof.
  revert m. change (preserves buffer_in_bounds (qemu_rx_events fuel chunks)).
  induction chunks as [|c rest IH]; cbn [qemu_rx_events].
  - apply preserves_ret.
  - apply preserves_bind; [apply event_in_bounds|]. intros _. exact IH.
Qed.

End Bounds.

(** ** Read events *)

Section ReadEvents.

Context {hdrs : QemuHeaders}.



Lemma header_of_prefix (got x y : list byte) :
  (6 <= length got)%nat -> header_of (got ++ x) = header_of (got ++ y).
Proof.
  intros Hg.
  rewrite <- (header_of_firstn (got ++ x)), <- (header_of_firstn (got ++ y)).
  rewrite !firstn_app.
  replace (6 - length got)%nat with 0%nat by lia. reflexivity.
Qed.


Section Reassembly.

Variables (p : Z) (payload : list byte) (h : EndpointHandler) (fuel : nat).
Hypothesis Hsig : 0 <= QEMU_HEADER_SIGNATURE < 65536.
Hypothesis Hfsig : 0 <= QEMU_FOOTER_SIGNATURE < 65536.
Hypothesis Hp : 0 <= p < 65536.
Hypothesis Hlen : Z.of_nat (length payload) <= QEMU_MAX_DATA_LEN.
Hypothesis Hmax : QEMU_MAX_DATA_LEN < 65536.
Hypothesis Hfit : Z.of_nat (length payload) + 8 <= RX_BUFFER_SIZE.
Hypothesis Hh : protocol_find_endpoint_handler p qemu_endpoints = Some h.


End Reassembly.


(** A pass of the loop that leaves [done] false has seen the decoder return
    [PACKET_BUFFER_HAS_DATA]. *)
Lemma body_false_has_data m m' :
  _qemu_thread_body m = Ret false m' ->
  exists m1 : machine,
    _qemu_handle_packet m1 = Ret PACKET_BUFFER_HAS_DATA m'.
Proof.
  unfold _qemu_thread_body, bind at 1, hw_qemu_read.
  assert (Hstep : forall (done : bool) (m1 : machine),
    (rv <- _qemu_handle_packet ;;
     done' <- (match rv with
               | PACKET_PROCESSED | PACKET_MORE_DATA_REQD => ret true
               | PACKET_INVALID => protocol_rx_buffer_reset ;; ret true
               | PACKET_BUFFER_HAS_DATA => ret done
               end) ;;
     vTaskDelay 0 ;; ret done') m1 = Ret false m' ->
    exists m2 : machine,
      _qemu_handle_packet m2 = Ret PACKET_BUFFER_HAS_DATA m').
  { intros done m1. unfold bind at 1.
    destruct (_qemu_handle_packet m1) as [rv m2| |] eqn:Hrv;
      [|discriminate|discriminate].
    destruct rv; cbn; try discriminate.
    destruct done; [discriminate|]. intros H. injection H as <-.
    now exists m1. }
  unfold bind at 1.
  destruct (negb _).
  - unfold bind at 1, protocol_rx_buffer_append.
    destruct (_ >? RX_BUFFER_SIZE); cbn [Z.ltb Z.compare];
      [unfold bind at 1, protocol_rx_buffer_reset, modify|];
      cbn [ret]; apply Hstep.
  - cbn [ret]. apply Hstep.
Qed.





(** With [assert] compiled in, [PACKET_BUFFER_HAS_DATA] is never returned:
    the assertion lets through only a used-length equal to the declared
    length, and the comparison behind it asks for a longer one.  The loop of
    the worker then ends with its first pass, whatever the buffer and the
    transport hold. *)
Theorem has_data_is_dead_under_assert :
  NDEBUG = false ->
  (forall m m' : machine,
      _qemu_handle_packet m <> Ret PACKET_BUFFER_HAS_DATA m')
  /\ (forall (fuel : nat) (m : machine),
        _qemu_thread_while (S fuel) m = _qemu_thread_while 1 m
        /\ _qemu_thread_while 1 m <> OutOfFuel).
Proof.
  intros Hdebug.
  assert (Hnever : forall m m' : machine,
             _qemu_handle_packet m <> Ret PACKET_BUFFER_HAS_DATA m').
  { intros m m' Hrun.
    destruct (decoder_paths m) as [Hs|Hs Hl|Hs Hl Hi|Hs Hl Hc Hf|Hs Hl Hc Hf].
    - rewrite handle_bad_signature in Hrun by assumption. discriminate.
    - rewrite handle_oversize in Hrun by (assumption || lia). discriminate.
    - rewrite handle_incomplete in Hrun
        by (try assumption;
            unfold sizeof_QemuCommChannelHeader,
              sizeof_QemuCommChannelFooter; lia).
      discriminate.
    - rewrite handle_bad_footer in Hrun
        by (try assumption;
            unfold sizeof_QemuCommChannelHeader,
              sizeof_QemuCommChannelFooter; lia).
      discriminate.
    - rewrite handle_validated in Hrun
        by (try assumption;
            unfold sizeof_QemuCommChannelHeader,
              sizeof_QemuCommChannelFooter; lia).
      rewrite Hdebug in Hrun. cbn [negb andb] in Hrun.
      destruct (Z.eqb_spec (rx_buf_used m - 8)
                           (len (header_of (rx_buffer m)))) as [He|He];
        cbn [negb] in Hrun; [|discriminate].
      destruct (protocol_find_endpoint_handler _ _); [|discriminate].
      rewrite He, Z.gtb_ltb, Z.ltb_irrefl in Hrun. discriminate. }
  split; [exact Hnever|].
  intros fuel m. cbn [_qemu_thread_while]. unfold bind.
  pose proof (body_total m) as Ht.
  destruct (_qemu_thread_body m) as [[] m1| |] eqn:Hbody;
    try (split; [reflexivity | discriminate]).
  - destruct (body_false_has_data _ _ Hbody) as [m0 Hm0].
    now destruct (Hnever m0 m1).
  - congruence.
Qed.

End ReadEvents.


(** ** The transmit side *)

Lemma htons_wraps x : htons (x - 65536) = htons x.
Proof.
  unfold htons. cbv zeta.
  replace (x - 65536) with (x + (-1) * 65536) by lia.
  now rewrite Z.mod_add by lia.
Qed.

Section Transmit.

Context {hdrs : QemuHeaders}.

Lemma length_spp_payload endpoint data :
  Z.of_nat (length (spp_payload endpoint data))
  = Z.of_nat (length data) + 4.
Proof. unfold spp_payload, store16. cbn [app length]. lia. Qed.

(** [qemu_send_data] is switched on by [qemu_init]: while [is_qemu] is 0 a
    send returns without a byte written and without any other change; after
    [qemu_init] a send of [len] bytes writes one frame of [len] + 12 bytes
    behind what was written before, whatever the flag was, and leaves the
    receive side alone. *)
Theorem send_is_switched_on_by_qemu_init
  (m : machine) (endpoint : Z) (data : list byte) :
  (is_qemu m = 0 ->
   qemu_send_data endpoint data (Z.of_nat (length data)) m = Ret tt m)
  /\ (qemu_init ;; qemu_send_data endpoint data (Z.of_nat (length data))) m
     = Ret tt (set_hw_tx
                 (hw_tx m
                  ++ qemu_frame QemuProtocol_SPP (spp_payload endpoint data))
                 (set_is_qemu 1 m))
  /\ Z.of_nat (length (qemu_frame QemuProtocol_SPP
                                  (spp_payload endpoint data)))
     = Z.of_nat (length data) + 12.
Proof.
  repeat split.
  - intros Hoff. unfold qemu_send_data, bind, get. now rewrite Hoff.
  - unfold bind at 1, qemu_init, modify.
    now rewrite qemu_send_data_emits by (cbn; discriminate).
  - rewrite length_qemu_frame, length_spp_payload. lia.
Qed.

(** The five writes of [qemu_send_data] make one frame: on an enabled
    channel a send leaves the machine as one [qemu_write] of the whole frame
    does, which returns the [len] + 12 bytes as written. *)
Theorem send_is_one_write_of_the_frame
  (m : machine) (endpoint : Z) (data : list byte) :
  is_qemu m <> 0 ->
  exists m' : machine,
    qemu_send_data endpoint data (Z.of_nat (length data)) m = Ret tt m'
    /\ qemu_write (qemu_frame QemuProtocol_SPP (spp_payload endpoint data))
                  (Z.of_nat (length data) + 12) m
       = Ret (Z.of_nat (length data) + 12) m'.
Proof.
  intros Hon. eexists. split; [now apply qemu_send_data_emits|].
  pose proof (length_qemu_frame QemuProtocol_SPP
                (spp_payload endpoint data)) as Hl.
  rewrite length_spp_payload in Hl.
  unfold qemu_write, bind, xSemaphoreTake, xSemaphoreGive, ret,
    hw_qemu_write.
  rewrite firstn_all2 by lia. f_equal. lia.
Qed.

(** The length field of a send wraps at 16 bits: for the four longest
    payloads the type of [len] admits, 65532 to 65535 bytes, the header
    declares [len] + 4 - 65536 bytes, that is 0 to 3, in front of the
    [len] + 4 bytes that follow it. *)
Theorem send_length_field_wraps
  (m : machine) (endpoint : Z) (data : list byte) :
  is_qemu m <> 0 ->
  0 <= QEMU_HEADER_SIGNATURE < 65536 ->
  0 <= QemuProtocol_SPP < 65536 ->
  65532 <= Z.of_nat (length data) <= 65535 ->
  exists (wire : list byte) (m' : machine),
    qemu_send_data endpoint data (Z.of_nat (length data)) m = Ret tt m'
    /\ hw_tx m' = hw_tx m ++ wire
    /\ header_of wire
       = mkHeader QEMU_HEADER_SIGNATURE QemuProtocol_SPP
                  (Z.of_nat (length data) + 4 - 65536)
    /\ Z.of_nat (length wire) = Z.of_nat (length data) + 12.
Proof.
  intros Hon Hsig Hspp Hlong.
  exists (qemu_frame QemuProtocol_SPP (spp_payload endpoint data)).
  eexists. split; [now apply qemu_send_data_emits|].
  split; [reflexivity|].
  split.
  - unfold qemu_frame. rewrite length_spp_payload.
    rewrite <- (htons_wraps (Z.of_nat (length data) + 4)).
    change (store16 (htons QEMU_HEADER_SIGNATURE)
            ++ store16 (htons QemuProtocol_SPP)
            ++ store16 (htons (Z.of_nat (length data) + 4 - 65536))
            ++ spp_payload endpoint data
            ++ store16 (htons QEMU_FOOTER_SIGNATURE))
      with (header_bytes
              (mkHeader (htons QEMU_HEADER_SIGNATURE)
                        (htons QemuProtocol_SPP)
                        (htons (Z.of_nat (length data) + 4 - 65536)))
            ++ spp_payload endpoint data
            ++ store16 (htons QEMU_FOOTER_SIGNATURE)).
    apply header_of_header_bytes; lia.
  - rewrite length_qemu_frame, length_spp_payload. lia.
Qed.

(** The send path does not look at the maximum the receive path enforces: a
    payload with [len] + 4 above [QEMU_MAX_DATA_LEN] is framed and written
    all the same, and the decoder turns that frame down as soon as its six
    header bytes are in the buffer. *)
Theorem send_above_the_maximum_is_rejected_on_receipt
  (m : machine) (endpoint : Z) (data : list byte) :
  is_qemu m <> 0 ->
  0 <= QEMU_HEADER_SIGNATURE < 65536 ->
  0 <= QemuProtocol_SPP < 65536 ->
  QEMU_MAX_DATA_LEN < Z.of_nat (length data) + 4 < 65536 ->
  exists (wire : list byte) (m' : machine),
    qemu_send_data endpoint data (Z.of_nat (length data)) m = Ret tt m'
    /\ hw_tx m' = hw_tx m ++ wire
    /\ forall (rx : machine) (k : nat) (rest : list byte),
         (6 <= k)%nat ->
         rx_buffer rx = firstn k wire ++ rest ->
         _qemu_handle_packet rx
         = Ret PACKET_INVALID
               (add_log (Invalid_packet_size (Z.of_nat (length data) + 4))
                        rx).
Proof.
  intros Hon Hsig Hspp Hbig.
  set (wire := qemu_frame QemuProtocol_SPP (spp_payload endpoint data)).
  pose proof (length_qemu_frame QemuProtocol_SPP
                (spp_payload endpoint data)) as Hl.
  rewrite length_spp_payload in Hl.
  exists wire. eexists. split; [now apply qemu_send_data_emits|].
  split; [reflexivity|].
  intros rx k rest Hk Hbuf.
  assert (Hh : header_of (rx_buffer rx)
               = mkHeader QEMU_HEADER_SIGNATURE QemuProtocol_SPP
                          (Z.of_nat (length data) + 4)).
  { rewrite Hbuf.
    rewrite (header_of_prefix (firstn k wire) rest (skipn k wire))
      by (rewrite length_firstn; fold wire in Hl; lia).
    rewrite firstn_skipn, <- (app_nil_r wire).
    unfold wire. rewrite header_of_qemu_frame
      by (rewrite ?length_spp_payload; lia).
    now rewrite length_spp_payload. }
  rewrite handle_oversize; rewrite Hh; cbn [signature len];
    [reflexivity | reflexivity | lia].
Qed.


End Transmit.

(** ** Further runs on the concrete headers *)

Section MoreRuns.

#[local] Existing Instance debug_build.

Ltac side_conditions :=
  try unfold buffer_in_bounds; try unfold readable;
  repeat match goal with
         | |- _ /\ _ => split
         | |- Forall _ _ => constructor
         end;
  vm_compute;
  first [ reflexivity
        | discriminate
        | let H := fresh in intro H; discriminate H
        | lia ].

(** Seven bytes of a frame of four, turned down as incomplete. *)
Lemma incomplete_frame_is_left_alone :
  same_but_log
    (with_buffer [0xFE; 0xED; 0; 1; 0; 4; 0x70] [])
    (add_log (More_Data_Required 4 7)
             (with_buffer [0xFE; 0xED; 0; 1; 0; 4; 0x70] []))
  /\ returned (_qemu_handle_packet
                 (add_log (More_Data_Required 4 7)
                    (with_buffer [0xFE; 0xED; 0; 1; 0; 4; 0x70] [])))
     = Some PACKET_MORE_DATA_REQD.
Proof.
  apply (rejected_buffer_is_left_alone
           (with_buffer [0xFE; 0xED; 0; 1; 0; 4; 0x70] []) _
           PACKET_MORE_DATA_REQD);
    [vm_compute; reflexivity | right; reflexivity].
Defined.

(** The frame of "hi", alone in the buffer. *)
Lemma hi_is_delivered :
  exists h : EndpointHandler,
    protocol_find_endpoint_handler
      (protocol (header_of (rx_buffer (received hi_frame)))) qemu_endpoints
    = Some h
    /\ dispatched (add_dispatched 1001 (decoded_packet (received hi_frame))
                      (consumed (received hi_frame)))
       = dispatched (received hi_frame)
         ++ [(h, mkPacket 0
                   (firstn (Z.to_nat
                              (len (header_of
                                      (rx_buffer (received hi_frame)))))
                           (skipn 6 (rx_buffer (received hi_frame))))
                   (len (header_of (rx_buffer (received hi_frame))))
                   transport_qemu_send_data)]
    /\ signature (header_of (rx_buffer (received hi_frame)))
       = QEMU_HEADER_SIGNATURE
    /\ len (header_of (rx_buffer (received hi_frame))) <= QEMU_MAX_DATA_LEN
    /\ len (header_of (rx_buffer (received hi_frame))) + 8
       <= rx_buf_used (received hi_frame)
    /\ rx_buf_used (add_dispatched 1001
                      (decoded_packet (received hi_frame))
                      (consumed (received hi_frame)))
       = rx_buf_used (received hi_frame) - 8
    /\ (PACKET_PROCESSED = PACKET_PROCESSED <->
        rx_buf_used (received hi_frame)
        = len (header_of (rx_buffer (received hi_frame))) + 8).
Proof.
  apply (dispatch_delivers_bytes_behind_header (received hi_frame) _
           PACKET_PROCESSED);
    [side_conditions | vm_compute; reflexivity | left; reflexivity].
Defined.

(** The frame of "hi" in one read, from start-up. *)
Lemma buffer_in_bounds_after_hi :
  match qemu_rx_events 4 [hi_frame] boot with
  | Ret _ m' => buffer_in_bounds m'
  | Fault _ m' => buffer_in_bounds m'
  | OutOfFuel => True
  end.
Proof.
  apply (receive_path_keeps_buffer_in_bounds 4 [hi_frame] boot).
  side_conditions.
Defined.



(** The debug build. *)
Lemma no_has_data_in_debug_build :
  (forall m m' : machine,
      _qemu_handle_packet m <> Ret PACKET_BUFFER_HAS_DATA m')
  /\ (forall (fuel : nat) (m : machine),
        _qemu_thread_while (S fuel) m = _qemu_thread_while 1 m
        /\ _qemu_thread_while 1 m <> OutOfFuel).
Proof. apply has_data_is_dead_under_assert. reflexivity. Defined.

(** "ping" to endpoint 7 after start-up. *)
Lemma ping_in_one_write :
  exists m' : machine,
    qemu_send_data 7 ping (Z.of_nat (length ping)) boot = Ret tt m'
    /\ qemu_write (qemu_frame QemuProtocol_SPP (spp_payload 7 ping))
                  (Z.of_nat (length ping) + 12) boot
       = Ret (Z.of_nat (length ping) + 12) m'.
Proof.
  apply (send_is_one_write_of_the_frame boot 7 ping). side_conditions.
Defined.

(** 65532 bytes to endpoint 7: the header declares 0 bytes. *)
Lemma longest_send_declares_nothing :
  exists (wire : list byte) (m' : machine),
    qemu_send_data 7 longest_data (Z.of_nat (length longest_data)) boot
    = Ret tt m'
    /\ hw_tx m' = hw_tx boot ++ wire
    /\ header_of wire
       = mkHeader QEMU_HEADER_SIGNATURE QemuProtocol_SPP
                  (Z.of_nat (length longest_data) + 4 - 65536)
    /\ Z.of_nat (length wire) = Z.of_nat (length longest_data) + 12.
Proof.
  apply (send_length_field_wraps boot 7 longest_data); side_conditions.
Defined.

(** 2045 bytes to endpoint 7: a declared length of 2049. *)
Lemma long_send_is_rejected :
  exists (wire : list byte) (m' : machine),
    qemu_send_data 7 long_data (Z.of_nat (length long_data)) boot = Ret tt m'
    /\ hw_tx m' = hw_tx boot ++ wire
    /\ forall (rx : machine) (k : nat) (rest : list byte),
         (6 <= k)%nat ->
         rx_buffer rx = firstn k wire ++ rest ->
         _qemu_handle_packet rx
         = Ret PACKET_INVALID
               (add_log (Invalid_packet_size
                           (Z.of_nat (length long_data) + 4)) rx).
Proof.
  apply (send_above_the_maximum_is_rejected_on_receipt boot 7 long_data);
    side_conditions.
Defined.


End MoreRuns.

